(** * uiautomatorstartall: a supervisor for UIAutomator2 test servers

    A shallow embedding of [uiautomatorstartall.cpp] and the proofs of the
    properties its specification states.

    - [std::string] is a [list ascii]; literals are written [lit "..."].
    - [std::vector<DeviceInfo>] is a [list DeviceInfo]; the
      [std::atomic<bool>] each record owns is the [done] field, and a
      [DeviceInfo&] is the record's position in the vector.
    - The threads run under an interleaving semantics: every load and store
      of a flag is one atomic step (the accesses are sequentially
      consistent), and a schedule picks the thread that moves next. *)

From Stdlib Require Import ZArith Ascii String List Lia.
From stdpp Require Import prelude strings pretty.

Local Open Scope Z_scope.

(** ** Strings *)

Abbreviation cstring := (list ascii).

Definition lit (s : string) : cstring := list_ascii_of_string s.

Definition TAB : ascii := ascii_of_nat 9.
Definition NL : ascii := ascii_of_nat 10.
Definition SLASH : ascii := "/"%char.

(** [std::isspace] in the "C" locale (the program never calls [setlocale]):
    space, and the five control characters from \t (9) to \r (13). *)
Definition isspace (ch : ascii) : bool :=
  let n := N_of_ascii ch in
  ((n =? 32) || ((9 <=? n) && (n <=? 13)))%N.

(** [std::find_if(first, last, p)], as the offset of the iterator it
    returns: the position of the first element satisfying [p], or the length
    of the range when there is none. *)
Fixpoint find_if {A} (p : A → bool) (l : list A) : nat :=
  match l with
  | [] => 0%nat
  | x :: r => if p x then 0%nat else S (find_if p r)
  end.

(** [s.erase(first, last)] on offsets. *)
Definition erase {A} (s : list A) (first last : nat) : list A :=
  take first s ++ drop last s.

Definition lstrip_spaces_inplace (s : cstring) : cstring :=
  if decide (length s = 0%nat) then s
  else erase s 0 (find_if (λ ch, negb (isspace ch)) s).

(** [find_if] over the reverse range yields a reverse iterator [k] places
    from [rbegin]; its [base()] is the forward offset [size - k]. *)
Definition rstrip_spaces_inplace (s : cstring) : cstring :=
  if decide (length s = 0%nat) then s
  else erase s (length s - find_if (λ ch, negb (isspace ch)) (reverse s))
               (length s).

Definition strip_spaces_inplace (s : cstring) : cstring :=
  if decide (length s = 0%nat) then s
  else rstrip_spaces_inplace (lstrip_spaces_inplace s).

(** ** Device records and the parser *)

Record DeviceInfo := { name : cstring; done : bool }.

(** [std::views::split(delim)] over a non-empty string: the segments between
    the delimiters, a trailing delimiter giving a last empty segment. *)
Fixpoint split_nonempty (delim : ascii) (s : cstring) : list cstring :=
  match s with
  | [] => [[]]
  | c :: r =>
      if decide (c = delim) then [] :: split_nonempty delim r
      else match split_nonempty delim r with
           | seg :: segs => (c :: seg) :: segs
           | [] => [[c]]
           end
  end.

(** The split view of an empty range has no element at all. *)
Definition views_split (delim : ascii) (s : cstring) : list cstring :=
  match s with
  | [] => []
  | _ :: _ => split_nonempty delim s
  end.

Definition get_devices (adb_devices_output : cstring) : list DeviceInfo :=
  fold_left
    (λ results st,
       let s := strip_spaces_inplace st in
       if decide (0 < length s)%nat
       then results ++ [{| name := s; done := true |}]
       else results)
    (views_split SLASH adb_devices_output) [].

(** *** The parser's contract, in the specification's words *)

(** [join_with d segs]: the segments with one delimiter between neighbours. *)
Fixpoint join_with (delim : ascii) (segs : list cstring) : cstring :=
  match segs with
  | [] => []
  | [seg] => seg
  | seg :: rest => seg ++ delim :: join_with delim rest
  end.

(** [t] is [seg] without its leading and trailing whitespace: what is cut
    off on either side is whitespace only, and what stays neither starts nor
    ends with whitespace. *)
Definition is_trim_of (seg t : cstring) : Prop :=
  ∃ before after,
    seg = before ++ t ++ after ∧
    forallb isspace before = true ∧
    forallb isspace after = true ∧
    (∀ c, head t = Some c → isspace c = false) ∧
    (∀ c, last t = Some c → isspace c = false).

(** ** Machine integers *)

Definition INT_MIN : Z := -2147483648.
Definition INT_MAX : Z := 2147483647.

Definition in_int (z : Z) : bool := (INT_MIN <=? z) && (z <=? INT_MAX).

(** The value of a mathematical integer in a 32-bit two's complement [int],
    and in a 32-bit unsigned ([useconds_t], [DWORD]). *)
Definition to_int (z : Z) : Z := (z + 2 ^ 31) mod 2 ^ 32 - 2 ^ 31.
Definition to_unsigned (z : Z) : Z := z mod 2 ^ 32.

(** What the build and the C library leave open: the [_WIN32] branch of the
    preprocessor, and the value [atoi] gives for a number that does not fit
    an [int] (undefined in ISO C; it is given the mathematical value). *)
Record platform := { win32 : bool; atoi_overflow : Z → Z }.

(** ** [atoi]

    The C library's [atoi], after ISO C 7.22.1: [(int)strtol(s, NULL, 10)]
    on every input whose value fits. White space is skipped, one sign is
    read, then the longest run of decimal digits; conversion stops at the
    first other character, and without any digit the result is 0. *)

Definition isdigit (ch : ascii) : bool :=
  let n := N_of_ascii ch in ((48 <=? n) && (n <=? 57))%N.

Definition digit_value (ch : ascii) : Z := Z.of_N (N_of_ascii ch) - 48.

Fixpoint skip_spaces (s : cstring) : cstring :=
  match s with
  | c :: r => if isspace c then skip_spaces r else s
  | [] => []
  end.

Fixpoint atoi_digits (acc : Z) (s : cstring) : Z :=
  match s with
  | c :: r => if isdigit c then atoi_digits (acc * 10 + digit_value c) r else acc
  | [] => acc
  end.

Definition atoi_value (s : cstring) : Z :=
  match skip_spaces s with
  | c :: r =>
      if decide (c = "-"%char) then - atoi_digits 0 r
      else if decide (c = "+"%char) then atoi_digits 0 r
      else atoi_digits 0 (c :: r)
  | [] => 0
  end.

Definition atoi (p : platform) (s : cstring) : Z :=
  let v := atoi_value s in
  if in_int v then v else to_int (atoi_overflow p v).

(** ** Events, threads and configurations *)

Inductive event :=
  | EStdout (text : cstring)
  | ESpawn (tid dev : nat)
  | EStore (tid dev : nat) (b : bool)
  | ESystem (tid : nat) (cmd : cstring) (status : Z)
  | EUsleep (useconds : Z)
  | ESleep (dwMilliseconds : Z).

(** The visible operations of a worker: a store to its record's flag, and a
    call of [system] that lasts until the command has exited. *)
Inductive action :=
  | AStore (b : bool)
  | ASystem (cmd : cstring).

(** A started [std::thread]: the record it was bound to with [std::ref],
    and what is left of [systemthread] to run. *)
Record thread := { dev : nat; todo : list action }.

(** Where [main] stands in its [for] loop over the devices: before the two
    output statements of record [i] or before its [if]. [ForPrint i] with
    [i] past the last record is the end of the range, before [sleepcp]. *)
Inductive main_pc :=
  | ForPrint (i : nat)
  | ForTest (i : nat).

Record config := {
  adb_exe : cstring;
  sleep_time : Z;
  devices : list DeviceInfo;
  allthreads : list thread;
  mpc : main_pc;
  trace : list event
}.

(** ** The worker *)

Definition connect_cmd (adb : cstring) (stru : DeviceInfo) : cstring :=
  adb ++ lit " connect " ++ name stru.

Definition run_server (adb : cstring) (stru : DeviceInfo) : cstring :=
  adb ++ lit " -s " ++ name stru ++
  lit " shell am instrument -w -r -e debug false -e class com.github.uiautomator.stub.Stub " ++
  lit "com.github.uiautomator.test/androidx.test.runner.AndroidJUnitRunner".

Definition systemthread (adb : cstring) (stru : DeviceInfo) : list action :=
  [AStore false;
   ASystem (connect_cmd adb stru);
   ASystem (run_server adb stru);
   AStore true].

Definition set_done (b : bool) (d : DeviceInfo) : DeviceInfo :=
  {| name := name d; done := b |}.

(** One step of worker [tid]; [status] is what [system] returns when the
    step is such a call (the worker drops it). *)
Definition worker_step (tid : nat) (status : Z) (c : config) : option config :=
  t ← allthreads c !! tid;
  match todo t with
  | [] => None
  | a :: rest =>
      let threads := <[tid := {| dev := dev t; todo := rest |}]> (allthreads c) in
      match a with
      | AStore b =>
          Some {| adb_exe := adb_exe c; sleep_time := sleep_time c;
                  devices := alter (set_done b) (dev t) (devices c);
                  allthreads := threads; mpc := mpc c;
                  trace := trace c ++ [EStore tid (dev t) b] |}
      | ASystem cmd =>
          Some {| adb_exe := adb_exe c; sleep_time := sleep_time c;
                  devices := devices c;
                  allthreads := threads; mpc := mpc c;
                  trace := trace c ++ [ESystem tid cmd status] |}
      end
  end.

(** ** The supervisor *)

(** [milliseconds * 1000] in [int]; a product that does not fit wraps. *)
Definition usleep_arg (milliseconds : Z) : Z := to_int (milliseconds * 1000).

Definition sleepcp (p : platform) (milliseconds : Z) : event :=
  if win32 p then ESleep (to_unsigned milliseconds)
  else EUsleep (to_unsigned (usleep_arg milliseconds)).

(** [operator<<] for a [bool], [boolalpha] not being set. *)
Definition print_bool (b : bool) : cstring := if b then lit "1" else lit "0".

Definition device_line (d : DeviceInfo) : cstring :=
  name d ++ [TAB] ++ print_bool (done d) ++ [NL].

Definition main_step (p : platform) (c : config) : option config :=
  match mpc c with
  | ForPrint i =>
      match devices c !! i with
      | Some d =>
          Some {| adb_exe := adb_exe c; sleep_time := sleep_time c;
                  devices := devices c; allthreads := allthreads c;
                  mpc := ForTest i;
                  trace := trace c ++ [EStdout (device_line d)] |}
      | None =>
          Some {| adb_exe := adb_exe c; sleep_time := sleep_time c;
                  devices := devices c; allthreads := allthreads c;
                  mpc := ForPrint 0;
                  trace := trace c ++ [sleepcp p (sleep_time c)] |}
      end
  | ForTest i =>
      d ← devices c !! i;
      if done d then
        Some {| adb_exe := adb_exe c; sleep_time := sleep_time c;
                devices := devices c;
                allthreads :=
                  allthreads c ++ [{| dev := i; todo := systemthread (adb_exe c) d |}];
                mpc := ForPrint (S i);
                trace := trace c ++ [ESpawn (length (allthreads c)) i] |}
      else
        Some {| adb_exe := adb_exe c; sleep_time := sleep_time c;
                devices := devices c; allthreads := allthreads c;
                mpc := ForPrint (S i);
                trace := trace c |}
  end.

(** ** Schedules *)

Inductive choice :=
  | RunMain
  | RunWorker (tid : nat) (status : Z).

Definition step (p : platform) (ch : choice) (c : config) : option config :=
  match ch with
  | RunMain => main_step p c
  | RunWorker tid status => worker_step tid status c
  end.

Fixpoint run (p : platform) (sched : list choice) (c : config) : option config :=
  match sched with
  | [] => Some c
  | ch :: rest => c' ← step p ch c; run p rest c'
  end.

(** ** Startup *)

(** [EXIT_FAILURE] of <cstdlib>, as glibc, musl, macOS and the Microsoft
    runtime define it. *)
Definition EXIT_FAILURE : Z := 1.

Inductive startup :=
  | Exited (status : Z) (cerr : cstring)
  | Started (c : config).

Definition usage_line (argv0 : cstring) : cstring :=
  lit "Usage: " ++ argv0 ++
  lit "adbpath sleeptime ADBDEVICE/ADBDEVICE1/ADBDEVICE2 ..." ++ [NL].

Definition example_line (argv0 : cstring) : cstring :=
  lit "Example: " ++ argv0 ++
  lit "adb.exe 5000 127.0.0.1:5555/127.0.0.1:5570/127.0.0.1:5585/127.0.0.1:5590/127.0.0.1:5595" ++ [NL].

(** [main] up to its loop. [argv0] is [argv[0]] and [args] the arguments
    after it, so [argc] is at least 1. *)
Definition main (p : platform) (argv0 : cstring) (args : list cstring) : startup :=
  let argc := Z.of_nat (S (length args)) in
  if decide (argc < 4) then
    Exited EXIT_FAILURE (usage_line argv0 ++ example_line argv0)
  else
    let argv i := default [] (args !! (i - 1)%nat) in
    Started {| sleep_time := atoi p (argv 2%nat);
               adb_exe := [] ++ argv 1%nat;
               devices := get_devices (argv 3%nat);
               trace := [EStdout (lit "Devices:" ++ [NL])];
               allthreads := [];
               mpc := ForPrint 0 |}.

(** ** Runs of the program *)

(** The configuration in which [main] enters its loop, if it does. *)
Definition boot (p : platform) (argv0 : cstring) (args : list cstring) : option config :=
  match main p argv0 args with
  | Started c => Some c
  | Exited _ _ => None
  end.

Definition reachable (p : platform) (argv0 : cstring) (args : list cstring)
    (c : config) : Prop :=
  ∃ sched, boot p argv0 args ≫= run p sched = Some c.

(** The flag of record [i], as a load would read it. *)
Definition flag (c : config) (i : nat) : option bool := done <$> devices c !! i.

(** The record [emplace_back] adds for a name. *)
Definition new_device (s : cstring) : DeviceInfo := {| name := s; done := true |}.

Definition action_by (tid : nat) (e : event) : option action :=
  match e with
  | EStore t _ b => if decide (t = tid) then Some (AStore b) else None
  | ESystem t cmd _ => if decide (t = tid) then Some (ASystem cmd) else None
  | _ => None
  end.

(** The operations worker [tid] has completed so far, oldest first. *)
Definition performed (tid : nat) (tr : list event) : list action :=
  omap (action_by tid) tr.

(** What holds in every configuration a run goes through: [main] tests
    existing records only; what a worker has done and has left to do is the
    body of [systemthread] for its record; no event belongs to a thread that
    was not started. *)
Record invariant (c : config) : Prop := {
  inv_pc : ∀ i, mpc c = ForTest i → (i < length (devices c))%nat;
  inv_threads : ∀ tid t, allthreads c !! tid = Some t →
     ∃ d, devices c !! dev t = Some d ∧
          performed tid (trace c) ++ todo t = systemthread (adb_exe c) d;
  inv_fresh : ∀ tid, (length (allthreads c) ≤ tid)%nat → performed tid (trace c) = []
}.

(** The workers one uninterrupted pass over the records [ds] starts, the
    first of them being record number [i]. *)
Fixpoint scan_threads (adb : cstring) (i : nat) (ds : list DeviceInfo) : list thread :=
  match ds with
  | [] => []
  | d :: r =>
      (if done d then [{| dev := i; todo := systemthread adb d |}] else [])
      ++ scan_threads adb (S i) r
  end.

(** The events of such a pass; [tid] is the number of threads started
    before it. *)
Fixpoint scan_trace (tid i : nat) (ds : list DeviceInfo) : list event :=
  match ds with
  | [] => []
  | d :: r =>
      EStdout (name d ++ [TAB] ++ print_bool (done d) ++ [NL]) ::
      (if done d then ESpawn tid i :: scan_trace (S tid) (S i) r
       else scan_trace tid (S i) r)
  end.

(** ** Texts and numerals *)

(** The lines of a text; after a final newline comes one empty line. *)
Definition lines (text : cstring) : list cstring := split_nonempty NL text.

Definition example_lines (text : cstring) : list cstring :=
  filter (λ l, lit "Example: " `prefix_of` l) (lines text).

(** A decimal numeral: an optional sign and one digit or more. *)
Definition is_numeral (s : cstring) : bool :=
  let digits r := forallb isdigit r && bool_decide (r ≠ []) in
  match s with
  | c :: r =>
      if bool_decide (c = "-"%char ∨ c = "+"%char) then digits r else digits s
  | [] => false
  end.

(** The number a digit string denotes in base 10. *)
Fixpoint decimal_value (ds : cstring) : Z :=
  match ds with
  | [] => 0
  | c :: r => digit_value c * 10 ^ Z.of_nat (length r) + decimal_value r
  end.

Definition sign_factor (sg : cstring) : Z := if decide (sg = ["-"%char]) then -1 else 1.

(** ** A sample run

    The invocation of the program's own documentation,
    [./main adb.exe 5000 127.0.0.1:5555/127.0.0.1:5570], on a 64-bit glibc
    build: there [atoi] is [(int) strtol (s, NULL, 10)], and [strtol]
    saturates at [LONG_MIN] and [LONG_MAX]. *)

Definition linux_glibc : platform :=
  {| win32 := false;
     atoi_overflow := λ v, Z.max (- 2 ^ 63) (Z.min (2 ^ 63 - 1) v) |}.

Definition sample_args : list cstring :=
  [lit "adb.exe"; lit "5000"; lit "127.0.0.1:5555/127.0.0.1:5570"].

Definition sample_devices : list DeviceInfo :=
  [new_device (lit "127.0.0.1:5555"); new_device (lit "127.0.0.1:5570")].

Definition sample_boot : config :=
  {| adb_exe := lit "adb.exe"; sleep_time := 5000; devices := sample_devices;
     allthreads := []; mpc := ForPrint 0;
     trace := [EStdout (lit "Devices:" ++ [NL])] |}.

(** The sample after [main] has visited the first record and started its
    worker. *)
Definition sample_started : config :=
  {| adb_exe := lit "adb.exe"; sleep_time := 5000; devices := sample_devices;
     allthreads :=
       [{| dev := 0; todo := systemthread (lit "adb.exe") (new_device (lit "127.0.0.1:5555")) |}];
     mpc := ForPrint 1;
     trace := [EStdout (lit "Devices:" ++ [NL]);
               EStdout (lit "127.0.0.1:5555" ++ [TAB] ++ lit "1" ++ [NL]);
               ESpawn 0 0] |}.

(** ** Workers in flight, spawns and prompt schedules *)

(** A worker that has stored busy and has not yet stored idle: it has
    something left to do, and the entry store is not what comes next. *)
Definition in_flight (t : thread) : Prop :=
  ∃ a rest, todo t = a :: rest ∧ a ≠ AStore false.

(** The threads a trace started, with the record each was bound to. *)
Definition spawns (tr : list event) : list (nat * nat) :=
  omap (λ e, match e with ESpawn tid i => Some (tid, i) | _ => None end) tr.

(** The texts a trace wrote to standard output, oldest first. *)
Definition stdout_texts (tr : list event) : list cstring :=
  omap (λ e, match e with EStdout text => Some text | _ => None end) tr.

(** A step after which a thread that it started takes its first step at
    once, before any other thread moves. *)
Definition prompt_step (p : platform) (ch : choice) (c : config) : option config :=
  c' ← step p ch c;
  if decide (length (allthreads c) < length (allthreads c'))%nat
  then worker_step (length (allthreads c)) 0 c'
  else Some c'.

Fixpoint run_prompt (p : platform) (sched : list choice) (c : config) : option config :=
  match sched with
  | [] => Some c
  | ch :: rest => c' ← prompt_step p ch c; run_prompt p rest c'
  end.

(** Every started worker has taken its entry step. *)
Definition entered (c : config) : Prop :=
  ∀ tid t, allthreads c !! tid = Some t → head (todo t) ≠ Some (AStore false).

(** A worker that has not ended finds its record's flag busy and is the
    only such worker bound to that record. *)
Definition exclusive (c : config) : Prop :=
  ∀ tid t, allthreads c !! tid = Some t → todo t ≠ [] →
    flag c (dev t) = Some false ∧
    ∀ tid' t', allthreads c !! tid' = Some t' → dev t' = dev t → todo t' ≠ [] → tid' = tid.

(** The number of records whose line the current pass of the loop has
    printed. *)
Definition printed (pc : main_pc) : nat :=
  match pc with
  | ForPrint i => i
  | ForTest i => S i
  end.

(** The sample after that worker has taken its entry step. *)
Definition sample_busy : config :=
  {| adb_exe := lit "adb.exe"; sleep_time := 5000;
     devices := [{| name := lit "127.0.0.1:5555"; done := false |};
                 new_device (lit "127.0.0.1:5570")];
     allthreads :=
       [{| dev := 0;
           todo := [ASystem (lit "adb.exe connect 127.0.0.1:5555");
                    ASystem (run_server (lit "adb.exe") (new_device (lit "127.0.0.1:5555")));
                    AStore true] |}];
     mpc := ForPrint 1;
     trace := [EStdout (lit "Devices:" ++ [NL]);
               EStdout (lit "127.0.0.1:5555" ++ [TAB] ++ lit "1" ++ [NL]);
               ESpawn 0 0;
               EStore 0 0 false] |}.

(** A build for Windows with the Microsoft runtime, whose [atoi] saturates
    at [INT_MIN] and [INT_MAX]. *)
Definition windows_msvc : platform :=
  {| win32 := true;
     atoi_overflow := λ v, if v <? 0 then INT_MIN else INT_MAX |}.

(** * Proofs *)

(** ** The parser *)

Section find_if.
Context {A : Type} (p : A → bool).

Lemma find_if_take l : forallb (λ x, negb (p x)) (take (find_if p l) l) = true.
Proof.
  induction l as [|x l IH]; simpl; [done|].
  destruct (p x) eqn:E; simpl; [done|]. by rewrite E.
Qed.

Lemma find_if_head l x : head (drop (find_if p l) l) = Some x → p x = true.
Proof.
  induction l as [|y l IH]; simpl; [done|].
  destruct (p y) eqn:E; simpl; [congruence|done].
Qed.

End find_if.

Lemma forallb_not_not_space l :
  forallb (λ ch, negb (negb (isspace ch))) l = forallb isspace l.
Proof. induction l as [|c l IH]; simpl; [done|]. by rewrite negb_involutive, IH. Qed.

Lemma forallb_reverse {A} (p : A → bool) l : forallb p (reverse l) = forallb p l.
Proof.
  induction l as [|x l IH]; [done|].
  rewrite reverse_cons, forallb_app, IH. simpl. destruct (p x), (forallb p l); done.
Qed.

Lemma lstrip_spaces_inplace_drop s :
  lstrip_spaces_inplace s = drop (find_if (λ ch, negb (isspace ch)) s) s.
Proof.
  unfold lstrip_spaces_inplace, erase. case_decide as H; [|done].
  by destruct s.
Qed.

Lemma rstrip_spaces_inplace_take s :
  rstrip_spaces_inplace s =
  take (length s - find_if (λ ch, negb (isspace ch)) (reverse s)) s.
Proof.
  unfold rstrip_spaces_inplace, erase. case_decide as H.
  - by destruct s.
  - by rewrite drop_all, app_nil_r.
Qed.

Lemma strip_spaces_inplace_eq s :
  strip_spaces_inplace s = rstrip_spaces_inplace (lstrip_spaces_inplace s).
Proof. unfold strip_spaces_inplace. case_decide; [by destruct s|done]. Qed.

Lemma head_take_Some {A} (l : list A) n x : head (take n l) = Some x → head l = Some x.
Proof. destruct l, n; simpl; congruence. Qed.

Lemma strip_spaces_inplace_trim seg : is_trim_of seg (strip_spaces_inplace seg).
Proof.
  rewrite strip_spaces_inplace_eq, rstrip_spaces_inplace_take, lstrip_spaces_inplace_drop.
  set (ns := λ ch, negb (isspace ch)).
  set (k1 := find_if ns seg). set (s1 := drop k1 seg).
  set (k2 := find_if ns (reverse s1)).
  exists (take k1 seg), (drop (length s1 - k2) s1). split_and!.
  - rewrite take_drop. unfold s1. by rewrite take_drop.
  - rewrite <-forallb_not_not_space. apply find_if_take.
  - rewrite <-forallb_reverse, <-forallb_not_not_space.
    replace (reverse (drop (length s1 - k2) s1)) with (take k2 (reverse s1))
      by apply take_reverse.
    apply find_if_take.
  - intros c Hc. apply head_take_Some in Hc.
    apply (find_if_head ns) in Hc. unfold ns in Hc. by destruct (isspace c).
  - intros c Hc. rewrite <-head_reverse in Hc.
    replace (reverse (take (length s1 - k2) s1)) with (drop k2 (reverse s1)) in Hc
      by apply drop_reverse.
    apply (find_if_head ns) in Hc. unfold ns in Hc. by destruct (isspace c).
Qed.

Lemma split_nonempty_cons delim s : ∃ seg segs, split_nonempty delim s = seg :: segs.
Proof.
  destruct s as [|c r]; simpl; [by eexists _, _|].
  case_decide; [by eexists _, _|].
  destruct (split_nonempty delim r); by eexists _, _.
Qed.

Lemma join_with_cons delim seg seg' segs :
  join_with delim (seg :: seg' :: segs) = seg ++ delim :: join_with delim (seg' :: segs).
Proof. done. Qed.

Lemma join_split_nonempty delim s : join_with delim (split_nonempty delim s) = s.
Proof.
  induction s as [|c r IH]; [done|].
  destruct (split_nonempty_cons delim r) as (seg & segs & E).
  cbn [split_nonempty]. rewrite E in *. case_decide as Hc.
  - subst c. by rewrite join_with_cons, IH.
  - destruct segs as [|seg' segs].
    + simpl in *. by rewrite IH.
    + rewrite join_with_cons in *. by rewrite <-IH.
Qed.

Lemma split_nonempty_no_delim delim s :
  Forall (λ seg, delim ∉ seg) (split_nonempty delim s).
Proof.
  induction s as [|c r IH]; simpl.
  - repeat constructor. by intros ?%elem_of_nil.
  - case_decide as Hc.
    + constructor; [by intros ?%elem_of_nil|done].
    + destruct (split_nonempty delim r) as [|seg segs].
      * repeat constructor. intros [?|?%elem_of_nil]%elem_of_cons; congruence.
      * inversion_clear IH as [|? ? Hseg Hsegs]. constructor; [|done].
        intros [?|?]%elem_of_cons; [congruence|done].
Qed.

Lemma join_views_split delim s : join_with delim (views_split delim s) = s.
Proof. destruct s; [done|]. apply join_split_nonempty. Qed.

Lemma views_split_no_delim delim s : Forall (λ seg, delim ∉ seg) (views_split delim s).
Proof. destruct s; [constructor|]. apply split_nonempty_no_delim. Qed.

Lemma get_devices_loop segs results :
  fold_left
    (λ results st,
       let s := strip_spaces_inplace st in
       if decide (0 < length s)%nat
       then results ++ [{| name := s; done := true |}]
       else results) segs results
  = results ++
    (new_device <$> filter (λ t, t ≠ []) (strip_spaces_inplace <$> segs)).
Proof.
  revert results. induction segs as [|seg segs IH]; intros results.
  - simpl. by rewrite app_nil_r.
  - cbn [fold_left]. rewrite IH, fmap_cons, filter_cons.
    destruct (strip_spaces_inplace seg) as [|c t] eqn:E.
    + by rewrite decide_False by (simpl; lia).
    + rewrite decide_True by (simpl; lia). rewrite decide_True by done.
      by rewrite <-app_assoc.
Qed.

Lemma get_devices_eq input :
  get_devices input =
  new_device <$> filter (λ t, t ≠ []) (strip_spaces_inplace <$> views_split SLASH input).
Proof. unfold get_devices. by rewrite get_devices_loop. Qed.

Lemma get_devices_names input :
  name <$> get_devices input =
  filter (λ t, t ≠ []) (strip_spaces_inplace <$> views_split SLASH input).
Proof.
  rewrite get_devices_eq.
  induction (filter _ _) as [|t l IH]; [done|].
  rewrite !fmap_cons, IH. done.
Qed.

Example views_split_example :
  views_split SLASH (lit "a//b/") = [lit "a"; []; lit "b"; []] ∧
  views_split SLASH [] = [].
Proof. done. Qed.

Example strip_spaces_inplace_example :
  strip_spaces_inplace (lit "  a b ") = lit "a b" ∧
  strip_spaces_inplace (TAB :: lit " " ++ [NL]) = [].
Proof. done. Qed.

Example get_devices_example :
  get_devices (lit "x/x") = [new_device (lit "x"); new_device (lit "x")].
Proof. done. Qed.

Lemma skip_spaces_app ws s : forallb isspace ws = true → skip_spaces (ws ++ s) = skip_spaces s.
Proof.
  induction ws as [|c ws IH]; simpl; [done|].
  destruct (isspace c); simpl; [done|discriminate].
Qed.

Lemma skip_spaces_head c r : isspace c = false → skip_spaces (c :: r) = c :: r.
Proof. simpl. by intros ->. Qed.

Lemma skip_spaces_trimmed t after :
  (∀ c, head t = Some c → isspace c = false) → forallb isspace after = true →
  skip_spaces (t ++ after) = if decide (t = []) then [] else t ++ after.
Proof.
  intros Ht Hafter. destruct t as [|c t]; simpl.
  - rewrite <-(app_nil_r after). by rewrite skip_spaces_app.
  - by rewrite (Ht c).
Qed.

(** The relation [is_trim_of] leaves no choice: the trimmed string is what
    is left when the white space is dropped from the front and the back. *)
Lemma is_trim_of_fun seg t :
  is_trim_of seg t → t = reverse (skip_spaces (reverse (skip_spaces seg))).
Proof.
  intros (before & after & -> & Hb & Ha & Hhead & Hlast).
  rewrite skip_spaces_app, skip_spaces_trimmed by done.
  case_decide as Ht; [by subst t|].
  rewrite reverse_app, skip_spaces_app by by rewrite forallb_reverse.
  rewrite <-(app_nil_r (reverse t)), skip_spaces_trimmed; [|by rewrite head_reverse|done].
  rewrite decide_False.
  - by rewrite app_nil_r, reverse_involutive.
  - intros H%(f_equal reverse). by rewrite reverse_involutive in H.
Qed.

Lemma is_trim_of_unique seg t t' : is_trim_of seg t → is_trim_of seg t' → t = t'.
Proof. intros H H'. by rewrite (is_trim_of_fun _ _ H), (is_trim_of_fun _ _ H'). Qed.

Lemma is_trim_of_strip segs trimmed :
  Forall2 is_trim_of segs trimmed → trimmed = strip_spaces_inplace <$> segs.
Proof.
  induction 1 as [|seg t segs trimmed Ht _ IH]; [done|].
  rewrite fmap_cons, <-IH. f_equal.
  eapply is_trim_of_unique; [done|apply strip_spaces_inplace_trim].
Qed.

Lemma split_nonempty_whole delim seg : delim ∉ seg → split_nonempty delim seg = [seg].
Proof.
  induction seg as [|c seg IH]; intros Hno; [done|].
  cbn [split_nonempty]. rewrite decide_False.
  - rewrite IH; [done|]. intros ?. apply Hno. by right.
  - intros ->. apply Hno. by left.
Qed.

Lemma split_nonempty_app delim seg rest :
  delim ∉ seg →
  split_nonempty delim (seg ++ delim :: rest) = seg :: split_nonempty delim rest.
Proof.
  induction seg as [|c seg IH]; intros Hno.
  - cbn [app split_nonempty]. by rewrite decide_True.
  - cbn [app split_nonempty]. rewrite decide_False.
    + rewrite IH; [done|]. intros ?. apply Hno. by right.
    + intros ->. apply Hno. by left.
Qed.

Lemma split_nonempty_join delim segs :
  Forall (λ seg, delim ∉ seg) segs → segs ≠ [] →
  split_nonempty delim (join_with delim segs) = segs.
Proof.
  induction 1 as [|seg segs Hseg Hsegs IH]; intros Hne; [done|].
  destruct segs as [|seg' segs].
  - by apply split_nonempty_whole.
  - rewrite join_with_cons, split_nonempty_app by done. f_equal. by apply IH.
Qed.

(** The segments of an input are determined up to the one ambiguity of the
    empty input, which has no segment or one empty segment. *)
Lemma views_split_join delim segs :
  Forall (λ seg, delim ∉ seg) segs →
  views_split delim (join_with delim segs) = segs ∨
  (join_with delim segs = [] ∧ segs = [[]]).
Proof.
  intros Hno. destruct segs as [|seg segs]; [by left|].
  destruct (join_with delim (seg :: segs)) as [|c r] eqn:E.
  - right. split; [done|].
    destruct segs as [|seg' segs]; [by simpl in E; subst|].
    rewrite join_with_cons in E. by destruct seg.
  - left. unfold views_split. rewrite <-E. by apply split_nonempty_join.
Qed.

(** C3. For every input string, [get_devices] splits it at the '/'
    delimiters (the segments, joined by '/', give the input back and hold no
    '/'), strips the leading and trailing whitespace of each segment and
    nothing else, drops the segments that are then empty, and keeps the
    others in their order. This determines the result: however the input is
    cut into segments free of '/' and these are trimmed, the names are the
    trimmed segments that are not empty; the result is a function of the
    input alone. The string " a /b/ /c " gives a, b, c and the string "/"
    gives nothing. *)
Theorem C3_parser_contract :
  (∀ input : cstring,
     ∃ segs trimmed : list cstring,
       join_with SLASH segs = input ∧
       Forall (λ seg, SLASH ∉ seg) segs ∧
       Forall2 is_trim_of segs trimmed ∧
       name <$> get_devices input = filter (λ t, t ≠ []) trimmed) ∧
  (∀ (input : cstring) (segs trimmed : list cstring),
     join_with SLASH segs = input →
     Forall (λ seg, SLASH ∉ seg) segs →
     Forall2 is_trim_of segs trimmed →
     name <$> get_devices input = filter (λ t, t ≠ []) trimmed) ∧
  (∀ input input' : cstring, input = input' → get_devices input = get_devices input') ∧
  name <$> get_devices (lit " a /b/ /c ") = [lit "a"; lit "b"; lit "c"] ∧
  name <$> get_devices (lit "/") = [].
Proof.
  split_and!; [| |by intros ?? ->|done|done].
  - intros input.
    exists (views_split SLASH input), (strip_spaces_inplace <$> views_split SLASH input).
    split_and!.
    + apply join_views_split.
    + apply views_split_no_delim.
    + apply Forall2_fmap_r, Forall_Forall2_diag, Forall_forall.
      intros seg _. apply strip_spaces_inplace_trim.
    + apply get_devices_names.
  - intros input segs trimmed <- Hno ->%is_trim_of_strip.
    rewrite get_devices_names.
    destruct (views_split_join SLASH segs Hno) as [->|[-> ->]]; done.
Qed.

(** ** Invariants of the run *)

Lemma performed_snoc tid tr e :
  performed tid (tr ++ [e]) = performed tid tr ++ from_option (λ a, [a]) [] (action_by tid e).
Proof.
  unfold performed. rewrite omap_app. simpl. by destruct (action_by tid e).
Qed.

Lemma run_app p s1 s2 c : run p (s1 ++ s2) c = run p s1 c ≫= run p s2.
Proof.
  revert c. induction s1 as [|ch s1 IH]; intros c; simpl; [done|].
  destruct (step p ch c) as [c'|]; simpl; [apply IH|done].
Qed.

Lemma run_snoc p sched ch c :
  run p (sched ++ [ch]) c = run p sched c ≫= step p ch.
Proof.
  rewrite run_app. destruct (run p sched c) as [c'|]; simpl; [|done].
  by destruct (step p ch c').
Qed.

Lemma main_step_invariant p c c' : invariant c → main_step p c = Some c' → invariant c'.
Proof.
  intros [Hpc Hth Hfr] H. unfold main_step in H.
  destruct (mpc c) as [i|i] eqn:Epc.
  - destruct (devices c !! i) as [d|] eqn:Ed; simplify_eq; split; simpl.
    + intros j [= <-]. by eapply lookup_lt_Some.
    + intros tid t Ht. rewrite performed_snoc. simpl. rewrite app_nil_r. eauto.
    + intros tid Ht. rewrite performed_snoc. simpl. rewrite app_nil_r. eauto.
    + done.
    + intros tid t Ht. rewrite performed_snoc.
      unfold sleepcp. destruct (win32 p); simpl; rewrite app_nil_r; eauto.
    + intros tid Ht. rewrite performed_snoc.
      unfold sleepcp. destruct (win32 p); simpl; rewrite app_nil_r; eauto.
  - destruct (devices c !! i) as [d|] eqn:Ed; simpl in H; [|done].
    destruct (done d) eqn:Edone; simplify_eq; split; simpl; try done.
    + intros tid t Ht. rewrite performed_snoc. simpl. rewrite app_nil_r.
      apply lookup_app_Some in Ht as [Ht|[Hlen Ht]]; [eauto|].
      apply list_lookup_singleton_Some in Ht as [Hz <-]. simpl.
      exists d. split; [done|]. rewrite Hfr by lia. done.
    + intros tid Ht. rewrite length_app in Ht. simpl in Ht.
      rewrite performed_snoc. simpl. rewrite app_nil_r. apply Hfr. lia.
Qed.

Lemma worker_step_invariant tid st c c' :
  invariant c → worker_step tid st c = Some c' → invariant c'.
Proof.
  intros [Hpc Hth Hfr] H. unfold worker_step in H.
  destruct (allthreads c !! tid) as [t|] eqn:Et; simpl in H; [|done].
  destruct (todo t) as [|a rest] eqn:Etodo; [done|].
  assert (tid < length (allthreads c))%nat as Htid by by eapply lookup_lt_Some.
  assert (∀ tid' t', <[tid:={| dev := dev t; todo := rest |}]> (allthreads c) !! tid' = Some t' →
            (tid' = tid ∧ t' = {| dev := dev t; todo := rest |}) ∨
            (tid' ≠ tid ∧ allthreads c !! tid' = Some t')) as Hlook.
  { intros tid' t' Ht'. destruct (decide (tid' = tid)) as [->|Hne].
    - rewrite list_lookup_insert_eq in Ht' by done. left. by simplify_eq.
    - rewrite list_lookup_insert_ne in Ht' by done. by right. }
  destruct a as [b|cmd]; simplify_eq; split; simpl.
  - intros i Hi. rewrite length_alter. by apply Hpc.
  - intros tid' t' Ht'. rewrite performed_snoc. simpl.
    apply Hlook in Ht' as [[-> ->]|[Hne Ht']]; simpl.
    + rewrite decide_True by done. simpl.
      destruct (Hth _ _ Et) as (d & Hd & Hp). rewrite Etodo in Hp.
      exists (set_done b d). split.
      * by rewrite list_lookup_alter_eq, Hd.
      * by rewrite <-app_assoc.
    + rewrite decide_False by done. simpl. rewrite app_nil_r.
      destruct (Hth _ _ Ht') as (d & Hd & Hp).
      destruct (decide (dev t' = dev t)) as [E|E].
      * exists (set_done b d). split; [|done].
        by rewrite E, list_lookup_alter_eq, <-E, Hd.
      * exists d. split; [|done]. by rewrite list_lookup_alter_ne.
  - intros tid' Hlen. rewrite length_insert in Hlen. rewrite performed_snoc. simpl.
    rewrite decide_False by lia. simpl. rewrite app_nil_r. by apply Hfr.
  - done.
  - intros tid' t' Ht'. rewrite performed_snoc. simpl.
    apply Hlook in Ht' as [[-> ->]|[Hne Ht']]; simpl.
    + rewrite decide_True by done. simpl.
      destruct (Hth _ _ Et) as (d & Hd & Hp). rewrite Etodo in Hp.
      exists d. split; [done|]. by rewrite <-app_assoc.
    + rewrite decide_False by done. simpl. rewrite app_nil_r. eauto.
  - intros tid' Hlen. rewrite length_insert in Hlen. rewrite performed_snoc. simpl.
    rewrite decide_False by lia. simpl. rewrite app_nil_r. by apply Hfr.
Qed.

Lemma step_invariant p ch c c' : invariant c → step p ch c = Some c' → invariant c'.
Proof.
  destruct ch; simpl; [apply main_step_invariant|apply worker_step_invariant].
Qed.

Lemma run_invariant p sched c c' : invariant c → run p sched c = Some c' → invariant c'.
Proof.
  revert c. induction sched as [|ch sched IH]; intros c Hc H; simpl in H.
  - by simplify_eq.
  - destruct (step p ch c) as [c1|] eqn:E; simpl in H; [|done].
    eapply IH; [|done]. by eapply step_invariant.
Qed.

Lemma boot_Some p argv0 args c :
  boot p argv0 args = Some c ↔
  ∃ adb ms devs rest,
    args = adb :: ms :: devs :: rest ∧
    c = {| adb_exe := adb; sleep_time := atoi p ms; devices := get_devices devs;
           allthreads := []; mpc := ForPrint 0;
           trace := [EStdout (lit "Devices:" ++ [NL])] |}.
Proof.
  unfold boot, main. split.
  - case_decide as Hargc; [done|]. intros [= <-].
    destruct args as [|adb [|ms [|devs rest]]]; simpl in Hargc; try lia.
    by eexists _, _, _, _.
  - intros (adb & ms & devs & rest & -> & ->).
    rewrite decide_False by (simpl; lia). done.
Qed.

Lemma boot_invariant p argv0 args c : boot p argv0 args = Some c → invariant c.
Proof.
  intros (adb & ms & devs & rest & -> & ->)%boot_Some. by split.
Qed.

Lemma reachable_invariant p argv0 args c : reachable p argv0 args c → invariant c.
Proof.
  intros [sched H]. destruct (boot p argv0 args) as [c0|] eqn:E; simpl in H; [|done].
  eapply run_invariant; [|done]. by eapply boot_invariant.
Qed.

Lemma reachable_boot p argv0 args c : boot p argv0 args = Some c → reachable p argv0 args c.
Proof. intros H. exists []. by rewrite H. Qed.

Lemma reachable_step p argv0 args ch c c' :
  reachable p argv0 args c → step p ch c = Some c' → reachable p argv0 args c'.
Proof.
  intros [sched H] Hstep. exists (sched ++ [ch]).
  destruct (boot p argv0 args) as [c0|]; simpl in *; [|done].
  by rewrite run_snoc, H.
Qed.

Lemma reachable_run p argv0 args sched c c' :
  reachable p argv0 args c → run p sched c = Some c' → reachable p argv0 args c'.
Proof.
  intros [sched0 H] Hrun. exists (sched0 ++ sched).
  destruct (boot p argv0 args) as [c0|]; simpl in *; [|done].
  by rewrite run_app, H.
Qed.

Lemma reachable_induction p argv0 args (P : config → Prop) :
  (∀ c, boot p argv0 args = Some c → P c) →
  (∀ ch c c', reachable p argv0 args c → P c → step p ch c = Some c' → P c') →
  ∀ c, reachable p argv0 args c → P c.
Proof.
  intros Hboot Hstep c [sched H]. revert c H.
  induction sched as [|ch sched IH] using rev_ind; intros c H.
  - destruct (boot p argv0 args) as [c0|] eqn:E; simpl in H; simplify_eq. by apply Hboot.
  - destruct (boot p argv0 args) as [c0|] eqn:E; simpl in *; [|done].
    rewrite run_snoc in H.
    destruct (run p sched c0) as [c1|] eqn:E1; simpl in H; [|done].
    eapply Hstep; [|by apply IH|done]. exists sched. by rewrite E.
Qed.

Lemma names_set_done b i (l : list DeviceInfo) :
  name <$> alter (set_done b) i l = name <$> l.
Proof.
  revert i. induction l as [|d l IH]; intros [|i]; [done..|].
  cbn. f_equal. apply IH.
Qed.

(** What no step changes: the bridge tool, the interval, and the records'
    number and names. *)
Lemma step_static p ch c c' :
  step p ch c = Some c' →
  adb_exe c' = adb_exe c ∧ sleep_time c' = sleep_time c ∧
  name <$> devices c' = name <$> devices c.
Proof.
  destruct ch as [|tid st]; simpl.
  - unfold main_step. destruct (mpc c) as [i|i].
    + destruct (devices c !! i); intros; by simplify_eq.
    + destruct (devices c !! i) as [d|]; simpl; [|done].
      destruct (done d); intros; by simplify_eq.
  - unfold worker_step. destruct (allthreads c !! tid) as [t|]; simpl; [|done].
    destruct (todo t) as [|[b|cmd] rest]; intros; simplify_eq; simpl; [|done].
    split_and!; [done..|]. apply names_set_done.
Qed.

Lemma reachable_static p argv0 args c :
  reachable p argv0 args c →
  ∃ adb ms devs rest,
    args = adb :: ms :: devs :: rest ∧
    adb_exe c = adb ∧ sleep_time c = atoi p ms ∧
    name <$> devices c = name <$> get_devices devs.
Proof.
  revert c. apply reachable_induction.
  - intros c (adb & ms & devs & rest & -> & ->)%boot_Some. by eexists _, _, _, _.
  - intros ch c c' _ (adb & ms & devs & rest & -> & IH) (E1 & E2 & E3)%step_static.
    rewrite E1, E2, E3. by eexists _, _, _, _.
Qed.

(** ** The worker *)

Lemma worker_step_store tid st c t b rest :
  allthreads c !! tid = Some t → todo t = AStore b :: rest →
  ∃ c', worker_step tid st c = Some c' ∧
        adb_exe c' = adb_exe c ∧
        devices c' = alter (set_done b) (dev t) (devices c) ∧
        allthreads c' = <[tid := {| dev := dev t; todo := rest |}]> (allthreads c) ∧
        mpc c' = mpc c ∧
        trace c' = trace c ++ [EStore tid (dev t) b].
Proof. intros Ht Htodo. unfold worker_step. rewrite Ht. simpl. rewrite Htodo. by eexists. Qed.

Lemma worker_step_system tid st c t cmd rest :
  allthreads c !! tid = Some t → todo t = ASystem cmd :: rest →
  ∃ c', worker_step tid st c = Some c' ∧
        adb_exe c' = adb_exe c ∧
        devices c' = devices c ∧
        allthreads c' = <[tid := {| dev := dev t; todo := rest |}]> (allthreads c) ∧
        mpc c' = mpc c ∧
        trace c' = trace c ++ [ESystem tid cmd st].
Proof. intros Ht Htodo. unfold worker_step. rewrite Ht. simpl. rewrite Htodo. by eexists. Qed.

Lemma worker_step_finished tid st c t :
  allthreads c !! tid = Some t → todo t = [] → worker_step tid st c = None.
Proof. intros Ht Htodo. unfold worker_step. rewrite Ht. simpl. by rewrite Htodo. Qed.

Lemma lookup_insert_thread (threads : list thread) tid t t' :
  threads !! tid = Some t → <[tid := t']> threads !! tid = Some t'.
Proof. intros H. apply list_lookup_insert_eq. by eapply lookup_lt_Some. Qed.

Lemma worker_runs_to_completion (c : config) (tid i : nat) (d : DeviceInfo)
    (st0 st1 st2 st3 st4 : Z) :
  allthreads c !! tid = Some {| dev := i; todo := systemthread (adb_exe c) d |} →
  devices c !! i = Some d →
  ∃ c1 c2 c3 c4,
    worker_step tid st0 c = Some c1 ∧
    trace c1 = trace c ++ [EStore tid i false] ∧
    flag c1 i = Some false ∧
    worker_step tid st1 c1 = Some c2 ∧
    trace c2 = trace c1 ++ [ESystem tid (connect_cmd (adb_exe c) d) st1] ∧
    flag c2 i = Some false ∧
    worker_step tid st2 c2 = Some c3 ∧
    trace c3 = trace c2 ++ [ESystem tid (run_server (adb_exe c) d) st2] ∧
    flag c3 i = Some false ∧
    worker_step tid st3 c3 = Some c4 ∧
    trace c4 = trace c3 ++ [EStore tid i true] ∧
    flag c4 i = Some true ∧
    worker_step tid st4 c4 = None.
Proof.
  intros Ht Hd.
  destruct (worker_step_store tid st0 c _ _ _ Ht eq_refl)
    as (c1 & S1 & A1 & D1 & T1 & _ & R1).
  apply (lookup_insert_thread _ _ _ {| dev := i; todo :=
    [ASystem (connect_cmd (adb_exe c) d); ASystem (run_server (adb_exe c) d); AStore true] |})
    in Ht as Ht1.
  simpl in *. rewrite <-T1 in Ht1.
  destruct (worker_step_system tid st1 c1 _ _ _ Ht1 eq_refl)
    as (c2 & S2 & A2 & D2 & T2 & _ & R2).
  apply (lookup_insert_thread _ _ _ {| dev := i; todo :=
    [ASystem (run_server (adb_exe c) d); AStore true] |}) in Ht1 as Ht2.
  simpl in *. rewrite <-T2 in Ht2.
  destruct (worker_step_system tid st2 c2 _ _ _ Ht2 eq_refl)
    as (c3 & S3 & A3 & D3 & T3 & _ & R3).
  apply (lookup_insert_thread _ _ _ {| dev := i; todo := [AStore true] |}) in Ht2 as Ht3.
  simpl in *. rewrite <-T3 in Ht3.
  destruct (worker_step_store tid st3 c3 _ _ _ Ht3 eq_refl)
    as (c4 & S4 & A4 & D4 & T4 & _ & R4).
  apply (lookup_insert_thread _ _ _ {| dev := i; todo := [] |}) in Ht3 as Ht4.
  simpl in *. rewrite <-T4 in Ht4.
  assert (flag c1 i = Some false) as F1.
  { unfold flag. by rewrite D1, list_lookup_alter_eq, Hd. }
  assert (flag c4 i = Some true) as F4.
  { unfold flag in *. rewrite D4, list_lookup_alter_eq, D3, D2.
    by destruct (devices c1 !! i). }
  exists c1, c2, c3, c4. split_and!; try done.
  - unfold flag. by rewrite D2.
  - unfold flag. by rewrite D3, D2.
  - by eapply worker_step_finished.
Qed.

(** Any worker takes the steps it has left, one after the other. *)
Lemma run_worker_todo p tid : ∀ todo0 sts c t,
  allthreads c !! tid = Some t → todo t = todo0 → length sts = length todo0 →
  ∃ c', run p (RunWorker tid <$> sts) c = Some c' ∧
        allthreads c' = <[tid := {| dev := dev t; todo := [] |}]> (allthreads c) ∧
        mpc c' = mpc c ∧
        length (devices c') = length (devices c) ∧
        (∀ j, j ≠ dev t → devices c' !! j = devices c !! j) ∧
        (∀ b, last todo0 = Some (AStore b) → (dev t < length (devices c))%nat →
              flag c' (dev t) = Some b).
Proof.
  induction todo0 as [|a rest IH]; intros sts c t Ht Htodo Hlen.
  - destruct sts; [|done]. exists c. split_and!; try done.
    symmetry. apply list_insert_id. rewrite Ht. f_equal. destruct t. simpl in *. by subst.
  - destruct sts as [|st sts]; [done|]. injection Hlen as Hlen.
    assert (∃ c1, worker_step tid st c = Some c1 ∧
              allthreads c1 = <[tid := {| dev := dev t; todo := rest |}]> (allthreads c) ∧
              mpc c1 = mpc c ∧
              length (devices c1) = length (devices c) ∧
              (∀ j, j ≠ dev t → devices c1 !! j = devices c !! j) ∧
              (∀ b, a = AStore b → (dev t < length (devices c))%nat →
                    flag c1 (dev t) = Some b)) as (c1 & S1 & T1 & P1 & L1 & D1 & F1).
    { destruct a as [b|cmd].
      - destruct (worker_step_store tid st c t b rest Ht Htodo) as (c1 & ? & _ & D & ? & ? & _).
        exists c1. split_and!; try done.
        + by rewrite D, length_alter.
        + intros j Hj. by rewrite D, list_lookup_alter_ne.
        + intros b' [= <-] Hi. unfold flag. rewrite D, list_lookup_alter_eq.
          destruct (lookup_lt_is_Some_2 _ _ Hi) as [d ->]. done.
      - destruct (worker_step_system tid st c t cmd rest Ht Htodo) as (c1 & ? & _ & D & ? & ? & _).
        exists c1. split_and!; try done; by rewrite D. }
    assert (allthreads c1 !! tid = Some {| dev := dev t; todo := rest |}) as Ht1.
    { rewrite T1. apply list_lookup_insert_eq. by eapply lookup_lt_Some. }
    destruct (IH sts c1 _ Ht1 eq_refl Hlen) as (c' & S' & T' & P' & L' & D' & F').
    simpl in *. exists c'. split_and!.
    + by rewrite S1.
    + by rewrite T', T1, list_insert_insert_eq.
    + congruence.
    + congruence.
    + intros j Hj. by rewrite D', D1.
    + intros b Hlast Hi. destruct rest as [|a' rest].
      * destruct sts; [|done]. simpl in S', Hlast. simplify_eq. by apply F1.
      * apply F'; [|lia]. by rewrite last_cons_cons in Hlast.
Qed.

(** C1. In every configuration the program can reach, what a worker has
    done so far and what it has left to do are, in this order: the store of
    busy to its record's flag, the connect command, the run-test-server
    command, the store of idle; so under every interleaving the worker sets
    the flag to busy before it runs a command and to idle only after both
    commands have returned. A worker that has not moved yet takes exactly
    these four steps, whatever status either command returns, and then has
    ended; when no other thread writes the flag meanwhile it reads busy after
    the first, second and third step and idle after the fourth. *)
Theorem C1_worker_lifecycle (p : platform) (argv0 : cstring) (args : list cstring)
    (c : config) (tid : nat) (t : thread) (st0 st1 st2 st3 st4 : Z) :
  reachable p argv0 args c →
  allthreads c !! tid = Some t →
  ∃ d,
    devices c !! dev t = Some d ∧
    performed tid (trace c) ++ todo t =
      [AStore false;
       ASystem (connect_cmd (adb_exe c) d);
       ASystem (run_server (adb_exe c) d);
       AStore true] ∧
    (performed tid (trace c) = [] →
     ∃ c1 c2 c3 c4,
       worker_step tid st0 c = Some c1 ∧
       trace c1 = trace c ++ [EStore tid (dev t) false] ∧
       flag c1 (dev t) = Some false ∧
       worker_step tid st1 c1 = Some c2 ∧
       trace c2 = trace c1 ++ [ESystem tid (connect_cmd (adb_exe c) d) st1] ∧
       flag c2 (dev t) = Some false ∧
       worker_step tid st2 c2 = Some c3 ∧
       trace c3 = trace c2 ++ [ESystem tid (run_server (adb_exe c) d) st2] ∧
       flag c3 (dev t) = Some false ∧
       worker_step tid st3 c3 = Some c4 ∧
       trace c4 = trace c3 ++ [EStore tid (dev t) true] ∧
       flag c4 (dev t) = Some true ∧
       worker_step tid st4 c4 = None).
Proof.
  intros Hc Ht.
  destruct (inv_threads c (reachable_invariant _ _ _ _ Hc) tid t Ht) as (d & Hd & Hp).
  exists d. split_and!; [done..|].
  intros Hfresh. rewrite Hfresh in Hp. simpl in Hp.
  apply worker_runs_to_completion; [|done].
  rewrite Ht, <-Hp. by destruct t.
Qed.

(** ** The supervisor loop *)

Lemma main_step_print p c i d :
  mpc c = ForPrint i → devices c !! i = Some d →
  ∃ c', main_step p c = Some c' ∧
        adb_exe c' = adb_exe c ∧ sleep_time c' = sleep_time c ∧
        devices c' = devices c ∧ allthreads c' = allthreads c ∧
        mpc c' = ForTest i ∧
        trace c' = trace c ++ [EStdout (name d ++ [TAB] ++ print_bool (done d) ++ [NL])].
Proof. intros Hpc Hd. unfold main_step. rewrite Hpc, Hd. by eexists. Qed.

Lemma main_step_sleep p c i :
  mpc c = ForPrint i → (length (devices c) ≤ i)%nat →
  ∃ c', main_step p c = Some c' ∧
        adb_exe c' = adb_exe c ∧ sleep_time c' = sleep_time c ∧
        devices c' = devices c ∧ allthreads c' = allthreads c ∧
        mpc c' = ForPrint 0 ∧
        trace c' = trace c ++ [sleepcp p (sleep_time c)].
Proof.
  intros Hpc Hi. unfold main_step. rewrite Hpc, lookup_ge_None_2 by done. by eexists.
Qed.

Lemma main_step_test p c i d :
  mpc c = ForTest i → devices c !! i = Some d →
  ∃ c', main_step p c = Some c' ∧
        adb_exe c' = adb_exe c ∧ sleep_time c' = sleep_time c ∧
        devices c' = devices c ∧
        allthreads c' =
          allthreads c ++
          (if done d then [{| dev := i; todo := systemthread (adb_exe c) d |}] else []) ∧
        mpc c' = ForPrint (S i) ∧
        trace c' =
          trace c ++ (if done d then [ESpawn (length (allthreads c)) i] else []).
Proof.
  intros Hpc Hd. unfold main_step. rewrite Hpc, Hd. simpl.
  destruct (done d); eexists; (split; [done|]); simpl; by rewrite ?app_nil_r.
Qed.



Lemma main_scan p ds : ∀ c i,
  mpc c = ForPrint i → drop i (devices c) = ds →
  ∃ c', run p (replicate (2 * length ds) RunMain) c = Some c' ∧
        adb_exe c' = adb_exe c ∧ sleep_time c' = sleep_time c ∧
        devices c' = devices c ∧
        allthreads c' = allthreads c ++ scan_threads (adb_exe c) i ds ∧
        mpc c' = ForPrint (i + length ds) ∧
        trace c' = trace c ++ scan_trace (length (allthreads c)) i ds.
Proof.
  induction ds as [|d r IH]; intros c i Hpc Hdrop.
  - exists c. simpl. rewrite !app_nil_r, Nat.add_0_r. done.
  - assert (devices c !! i = Some d) as Hd.
    { rewrite <-(Nat.add_0_r i), <-lookup_drop, Hdrop. done. }
    assert (drop (S i) (devices c) = r) as Hr.
    { rewrite (drop_S _ _ _ Hd) in Hdrop. by simplify_eq. }
    destruct (main_step_print p c i d Hpc Hd) as (c1 & S1 & A1 & I1 & D1 & T1 & P1 & R1).
    rewrite <-D1 in Hd.
    destruct (main_step_test p c1 i d P1 Hd) as (c2 & S2 & A2 & I2 & D2 & T2 & P2 & R2).
    rewrite <-D1, <-D2 in Hr.
    destruct (IH c2 (S i) P2 Hr) as (c' & S' & A' & I' & D' & T' & P' & R').
    exists c'. replace (2 * length (d :: r))%nat with (S (S (2 * length r))) by (simpl; lia).
    cbn [replicate run step]. rewrite S1. cbn [mbind option_bind]. rewrite S2.
    cbn [mbind option_bind]. split; [done|].
    split_and!; try congruence.
    + rewrite T', T2, T1, A2, A1. cbn [scan_threads]. by rewrite <-app_assoc.
    + rewrite P'. f_equal. simpl. lia.
    + rewrite R', R2, R1, T2, T1. cbn [scan_trace]. rewrite <-!app_assoc.
      f_equal. cbn [app]. f_equal.
      destruct (done d); cbn [app]; [|by rewrite app_nil_r].
      rewrite length_app. cbn [length]. by rewrite Nat.add_1_r.
Qed.

(** One whole iteration of the loop with no worker moving in between. *)
Lemma main_iteration p c :
  mpc c = ForPrint 0 →
  ∃ c', run p (replicate (2 * length (devices c) + 1) RunMain) c = Some c' ∧
        adb_exe c' = adb_exe c ∧ sleep_time c' = sleep_time c ∧
        devices c' = devices c ∧
        allthreads c' = allthreads c ++ scan_threads (adb_exe c) 0 (devices c) ∧
        mpc c' = ForPrint 0 ∧
        trace c' = trace c ++ scan_trace (length (allthreads c)) 0 (devices c)
                     ++ [sleepcp p (sleep_time c)].
Proof.
  intros Hpc.
  destruct (main_scan p (devices c) c 0 Hpc eq_refl) as (c1 & S1 & A1 & I1 & D1 & T1 & P1 & R1).
  destruct (main_step_sleep p c1 _ P1) as (c2 & S2 & A2 & I2 & D2 & T2 & P2 & R2).
  { rewrite D1. simpl. lia. }
  exists c2. rewrite replicate_add, run_app, S1. simpl. rewrite S2.
  split_and!; try congruence; [done|].
  rewrite R2, R1, I1. by rewrite <-app_assoc.
Qed.


(** The two loads of a visit are separate steps: here the worker of the one
    record ends between them, so that the visit prints the flag as busy and
    then starts a worker all the same. *)
Example visit_loads_flag_twice :
  ∃ c,
    boot linux_glibc (lit "./main") [lit "adb"; lit "0"; lit "d"]
      ≫= run linux_glibc
           [RunMain; RunMain; RunMain; RunWorker 0 0; RunMain;
            RunWorker 0 0; RunWorker 0 0; RunWorker 0 0; RunMain]
      = Some c ∧
    trace c =
      [EStdout (lit "Devices:" ++ [NL]);
       EStdout (lit "d" ++ [TAB] ++ lit "1" ++ [NL]); ESpawn 0 0;
       EUsleep 0;
       EStore 0 0 false;
       EStdout (lit "d" ++ [TAB] ++ lit "0" ++ [NL]);
       ESystem 0 (lit "adb connect d") 0;
       ESystem 0 (lit "adb -s d shell am instrument -w -r -e debug false -e class com.github.uiautomator.stub.Stub com.github.uiautomator.test/androidx.test.runner.AndroidJUnitRunner") 0;
       EStore 0 0 true;
       ESpawn 1 0].
Proof. eexists. split; [by vm_compute|]. by vm_compute. Qed.

(** ** The device table *)

Lemma get_devices_idle devs : Forall (λ d, done d = true) (get_devices devs).
Proof. rewrite get_devices_eq. apply Forall_fmap, Forall_forall. done. Qed.

Lemma main_step_devices p c c' : main_step p c = Some c' → devices c' = devices c.
Proof.
  unfold main_step. destruct (mpc c) as [i|i].
  - destruct (devices c !! i); intros; by simplify_eq.
  - destruct (devices c !! i) as [d|]; simpl; [|done].
    destruct (done d); intros; by simplify_eq.
Qed.

Lemma worker_step_devices tid st c c' t j :
  worker_step tid st c = Some c' → allthreads c !! tid = Some t → j ≠ dev t →
  devices c' !! j = devices c !! j.
Proof.
  unfold worker_step. intros H Ht Hj. rewrite Ht in H. simpl in H.
  destruct (todo t) as [|[b|cmd] rest]; simplify_eq; simpl; [|done].
  by rewrite list_lookup_alter_ne.
Qed.

Lemma get_devices_of_segments input segs trimmed :
  join_with SLASH segs = input →
  Forall (λ seg, SLASH ∉ seg) segs →
  Forall2 is_trim_of segs trimmed →
  get_devices input = new_device <$> filter (λ t, t ≠ []) trimmed.
Proof.
  intros <- Hno ->%is_trim_of_strip. rewrite get_devices_eq.
  destruct (views_split_join SLASH segs Hno) as [->|[-> ->]]; done.
Qed.

(** C4. At startup the table holds the records the parser gives for the
    third argument. Cut at its '/' delimiters into segments, each segment
    trimmed of its leading and trailing white space, the table has one
    record for each trimmed segment that is not empty, in their order, named
    by it and with its flag idle; this holds for the segments the parser
    takes and for every other way to cut and trim the argument, so a segment
    is never kept with white space around it and a blank segment never
    becomes a record. No step of any thread adds, removes or renames a
    record; [main] writes no flag, and a worker writes only the flag of the
    record it is bound to, also when another record has the same name: the
    list x/x gives two records, and a worker on the first leaves the flag of
    the second idle. *)
Theorem C4_device_table (p : platform) (argv0 adb ms devs : cstring) (rest : list cstring) :
  ∃ c0,
    boot p argv0 (adb :: ms :: devs :: rest) = Some c0 ∧
    devices c0 = get_devices devs ∧
    (∃ segs trimmed : list cstring,
       join_with SLASH segs = devs ∧
       Forall (λ seg, SLASH ∉ seg) segs ∧
       Forall2 is_trim_of segs trimmed ∧
       devices c0 =
         (λ nm, {| name := nm; done := true |}) <$> filter (λ t, t ≠ []) trimmed) ∧
    (∀ segs trimmed : list cstring,
       join_with SLASH segs = devs →
       Forall (λ seg, SLASH ∉ seg) segs →
       Forall2 is_trim_of segs trimmed →
       devices c0 =
         (λ nm, {| name := nm; done := true |}) <$> filter (λ t, t ≠ []) trimmed) ∧
    name <$> devices c0 =
      filter (λ t, t ≠ []) (strip_spaces_inplace <$> views_split SLASH devs) ∧
    Forall (λ d, done d = true) (devices c0) ∧
    (∀ c, reachable p argv0 (adb :: ms :: devs :: rest) c →
       name <$> devices c = name <$> devices c0 ∧
       (∀ c', main_step p c = Some c' → devices c' = devices c) ∧
       (∀ tid st c' t j,
          worker_step tid st c = Some c' → allthreads c !! tid = Some t → j ≠ dev t →
          devices c' !! j = devices c !! j)) ∧
    (∃ c, boot p argv0 [adb; ms; lit "x/x"] ≫= run p [RunMain; RunMain; RunWorker 0 0] = Some c ∧
       devices c = [{| name := lit "x"; done := false |}; {| name := lit "x"; done := true |}]).
Proof.
  eexists. split; [by apply boot_Some; eexists _, _, _, _|]. simpl. split_and!.
  - done.
  - exists (views_split SLASH devs), (strip_spaces_inplace <$> views_split SLASH devs).
    split_and!.
    + apply join_views_split.
    + apply views_split_no_delim.
    + apply Forall2_fmap_r, Forall_Forall2_diag, Forall_forall.
      intros seg _. apply strip_spaces_inplace_trim.
    + apply get_devices_eq.
  - intros segs trimmed Hjoin Hno Htrim.
    by apply (get_devices_of_segments devs segs trimmed).
  - apply get_devices_names.
  - apply get_devices_idle.
  - intros c Hc. split_and!.
    + destruct (reachable_static _ _ _ _ Hc) as (? & ? & ? & ? & ? & _ & _ & ?).
      by simplify_eq.
    + apply main_step_devices.
    + intros tid st c' t j. apply worker_step_devices.
  - by eexists.
Qed.

(** ** The commands *)

(** C5. In every configuration the program can reach, what a worker has
    done and what it has left to do are together: the store of busy, the
    command bridge-tool, connect, name, then the command bridge-tool, -s,
    name and the instrumentation arguments, and the store of idle; the
    bridge tool is the first argument word for word and the name is that of
    the worker's record, one of the parsed names. The worker does issue
    them: a worker that has not moved yet takes four steps, whatever
    statuses the commands return, and these add to the trace the store of
    busy, the return of [system] from the connect command, its return from
    the run-test-server command, and the store of idle, in this order and
    with exactly these command strings; and a worker at any stage can take
    the steps it has left, after which the trace holds all four of its
    operations. *)
Theorem C5_worker_commands (p : platform) (argv0 adb ms devs : cstring)
    (rest : list cstring) (c : config) (tid : nat) (t : thread) :
  reachable p argv0 (adb :: ms :: devs :: rest) c →
  allthreads c !! tid = Some t →
  ∃ nm,
    name <$> devices c !! dev t = Some nm ∧
    nm ∈ name <$> get_devices devs ∧
    performed tid (trace c) ++ todo t =
      [AStore false;
       ASystem (adb ++ lit " connect " ++ nm);
       ASystem (adb ++ lit " -s " ++ nm ++ lit " shell am instrument -w -r -e debug false -e class com.github.uiautomator.stub.Stub com.github.uiautomator.test/androidx.test.runner.AndroidJUnitRunner");
       AStore true] ∧
    (performed tid (trace c) = [] →
     ∀ st0 st1 st2 st3 : Z,
       ∃ c',
         run p [RunWorker tid st0; RunWorker tid st1; RunWorker tid st2; RunWorker tid st3] c
           = Some c' ∧
         trace c' =
           trace c ++
           [EStore tid (dev t) false;
            ESystem tid (adb ++ lit " connect " ++ nm) st1;
            ESystem tid (adb ++ lit " -s " ++ nm ++ lit " shell am instrument -w -r -e debug false -e class com.github.uiautomator.stub.Stub com.github.uiautomator.test/androidx.test.runner.AndroidJUnitRunner") st2;
            EStore tid (dev t) true]) ∧
    (∀ sts : list Z, length sts = length (todo t) →
       ∃ c',
         run p (RunWorker tid <$> sts) c = Some c' ∧
         allthreads c' !! tid = Some {| dev := dev t; todo := [] |} ∧
         performed tid (trace c') =
           [AStore false;
            ASystem (adb ++ lit " connect " ++ nm);
            ASystem (adb ++ lit " -s " ++ nm ++ lit " shell am instrument -w -r -e debug false -e class com.github.uiautomator.stub.Stub com.github.uiautomator.test/androidx.test.runner.AndroidJUnitRunner");
            AStore true]).
Proof.
  intros Hc Ht.
  destruct (reachable_static _ _ _ _ Hc) as (? & ? & ? & ? & ? & Hadb & _ & Hnames).
  simplify_eq.
  destruct (inv_threads c (reachable_invariant _ _ _ _ Hc) tid t Ht) as (d & Hd & Hp).
  exists (name d). split_and!.
  - by rewrite Hd.
  - rewrite <-Hnames. apply list_elem_of_fmap. exists d. split; [done|].
    by eapply list_elem_of_lookup_2.
  - rewrite Hp. unfold systemthread, connect_cmd, run_server. done.
  - intros Hfresh st0 st1 st2 st3. rewrite Hfresh in Hp. simpl in Hp.
    destruct (worker_runs_to_completion c tid (dev t) d st0 st1 st2 st3 0)
      as (c1 & c2 & c3 & c4 & S1 & R1 & _ & S2 & R2 & _ & S3 & R3 & _ & S4 & R4 & _);
      [|done|].
    { rewrite Ht, <-Hp. by destruct t. }
    exists c4. split.
    + simpl. rewrite S1. simpl. rewrite S2. simpl. rewrite S3. simpl. by rewrite S4.
    + rewrite R4, R3, R2, R1, <-!app_assoc. unfold connect_cmd, run_server. done.
  - intros sts Hlen.
    destruct (run_worker_todo p tid (todo t) sts c t Ht eq_refl Hlen)
      as (c' & Hrun & Hthreads & _).
    assert (allthreads c' !! tid = Some {| dev := dev t; todo := [] |}) as Ht'.
    { rewrite Hthreads. apply list_lookup_insert_eq. by eapply lookup_lt_Some. }
    exists c'. split_and!; [done..|].
    pose proof (reachable_run _ _ _ _ _ _ Hc Hrun) as Hc'.
    destruct (reachable_static _ _ _ _ Hc')
      as (adb' & ms' & devs' & rest' & Hargs & Hadb' & _ & Hnames').
    injection Hargs as <- <- <- <-.
    destruct (inv_threads c' (reachable_invariant _ _ _ _ Hc') tid _ Ht') as (d' & Hd' & Hp').
    simpl in Hd', Hp'. rewrite app_nil_r in Hp'.
    assert (name d' = name d) as Hname.
    { assert ((name <$> devices c') !! dev t = (name <$> devices c) !! dev t) as E
        by by rewrite Hnames', Hnames.
      rewrite !list_lookup_fmap, Hd, Hd' in E. by simplify_eq/=. }
    rewrite Hp', Hadb'. unfold systemthread, connect_cmd, run_server. by rewrite Hname.
Qed.

(** ** The race between the scan and the worker's entry *)

(** C8. Whenever the table has a record, some schedule leads to a
    configuration with two different workers bound to one and the same
    record, each past its entry store and before its connect command: [main]
    tests the flag of that record in two successive iterations before the
    worker that the first test started has run its first step. Every read
    and write of the flag is a step of its own in this schedule. *)
Theorem C8_duplicate_workers (p : platform) (argv0 adb ms devs : cstring)
    (rest : list cstring) :
  get_devices devs ≠ [] →
  ∃ sched c tid1 tid2 i d,
    boot p argv0 (adb :: ms :: devs :: rest) ≫= run p sched = Some c ∧
    tid1 ≠ tid2 ∧
    devices c !! i = Some d ∧
    allthreads c !! tid1 =
      Some {| dev := i;
              todo := [ASystem (connect_cmd adb d); ASystem (run_server adb d); AStore true] |} ∧
    allthreads c !! tid2 =
      Some {| dev := i;
              todo := [ASystem (connect_cmd adb d); ASystem (run_server adb d); AStore true] |}.
Proof.
  intros Hne.
  destruct (get_devices devs) as [|d0 r] eqn:ED; [done|]. clear Hne.
  assert (done d0 = true) as Hidle.
  { pose proof (get_devices_idle devs) as H. rewrite ED in H. by inversion H. }
  set (c0 := {| adb_exe := adb; sleep_time := atoi p ms; devices := d0 :: r;
                allthreads := []; mpc := ForPrint 0;
                trace := [EStdout (lit "Devices:" ++ [NL])] |}).
  assert (boot p argv0 (adb :: ms :: devs :: rest) = Some c0) as Hboot.
  { apply boot_Some. eexists _, _, _, _. split; [done|]. unfold c0. by rewrite ED. }
  destruct (main_iteration p c0 eq_refl) as (c1 & S1 & A1 & _ & D1 & T1 & P1 & _).
  simpl in A1, D1, T1. rewrite Hidle in T1. simpl in T1.
  set (m := length (allthreads c1)).
  assert (m ≠ 0)%nat as Hm by (unfold m; rewrite T1; simpl; lia).
  assert (devices c1 !! 0%nat = Some d0) as Hd1 by by rewrite D1.
  destruct (main_step_print p c1 0 d0 P1 Hd1) as (c2 & S2 & A2 & _ & D2 & T2 & P2 & _).
  rewrite <-D2 in Hd1.
  destruct (main_step_test p c2 0 d0 P2 Hd1) as (c3 & S3 & A3 & _ & D3 & T3 & _ & _).
  rewrite Hidle, T2, A2, A1 in T3.
  assert (allthreads c3 !! 0%nat = Some {| dev := 0; todo := systemthread adb d0 |}) as H0.
  { by rewrite T3, T1. }
  assert (allthreads c3 !! m = Some {| dev := 0; todo := systemthread adb d0 |}) as Hm3.
  { rewrite T3. unfold m. by rewrite list_lookup_middle. }
  destruct (worker_step_store 0 0 c3 _ _ _ H0 eq_refl) as (c4 & S4 & _ & D4 & T4 & _ & _).
  simpl in D4, T4.
  assert (allthreads c4 !! m = Some {| dev := 0; todo := systemthread adb d0 |}) as Hm4.
  { by rewrite T4, list_lookup_insert_ne. }
  destruct (worker_step_store m 0 c4 _ _ _ Hm4 eq_refl) as (c5 & S5 & _ & D5 & T5 & _ & _).
  simpl in D5, T5.
  exists (replicate (2 * length (d0 :: r) + 1) RunMain
            ++ [RunMain; RunMain; RunWorker 0 0; RunWorker m 0]),
    c5, 0%nat, m, 0%nat, (set_done false (set_done false d0)).
  split_and!.
  - rewrite Hboot. simpl. rewrite run_app. simpl in S1. rewrite S1. simpl.
    rewrite S2. simpl. rewrite S3. simpl. rewrite S4. simpl. by rewrite S5.
  - done.
  - by rewrite D5, D4, D3, D2, D1.
  - rewrite T5, list_lookup_insert_ne, T4 by done.
    apply list_lookup_insert_eq. by eapply lookup_lt_Some.
  - rewrite T5. apply list_lookup_insert_eq. by eapply lookup_lt_Some.
Qed.

(** ** Standard output *)

Lemma device_line_not_header nm (b : bool) :
  nm ++ [TAB] ++ (if b then lit "1" else lit "0") ++ [NL] ≠ lit "Devices:" ++ [NL].
Proof.
  change (lit "Devices:" ++ [NL]) with ((lit "Devices" ++ [":"%char]) ++ [NL]).
  replace (nm ++ [TAB] ++ (if b then lit "1" else lit "0") ++ [NL])
    with (((nm ++ [TAB]) ++ [if b then "1"%char else "0"%char]) ++ [NL])
    by (destruct b; by rewrite <-!app_assoc).
  intros [[_ H]%app_inj_tail _]%app_inj_tail. by destruct b.
Qed.

(** C9. In every configuration the program can reach, the first event of
    the trace is the write of the line Devices: to standard output, which
    thus precedes the first scan, and no later event writes that line again:
    every later write to standard output is the line of a record, made of
    its name, a tab, the numeral 1 when the flag read idle or 0 when it read
    busy, and a newline. *)
Theorem C9_stdout_format (p : platform) (argv0 : cstring) (args : list cstring)
    (c : config) :
  reachable p argv0 args c →
  (∃ tr, trace c = EStdout (lit "Devices:" ++ [NL]) :: tr ∧
         Forall (λ e, e ≠ EStdout (lit "Devices:" ++ [NL]) ∧
                   ∀ text, e = EStdout text →
                     ∃ nm b, nm ∈ name <$> devices c ∧
                             text = nm ++ [TAB] ++ (if b : bool then lit "1" else lit "0") ++ [NL])
                tr) ∧
  (∀ i d, mpc c = ForPrint i → devices c !! i = Some d →
     ∃ c', main_step p c = Some c' ∧
           trace c' = trace c ++
             [EStdout (name d ++ [TAB] ++ (if done d then lit "1" else lit "0") ++ [NL])]).
Proof.
  intros Hc. split.
  - revert c Hc. apply reachable_induction.
    + intros c (adb & ms & devs & rest & -> & ->)%boot_Some. by exists [].
    + intros ch c c' Hc (tr & Htr & Hall) Hstep.
      destruct (step_static _ _ _ _ Hstep) as (_ & _ & Hnames). rewrite Hnames.
      set (ok := λ e, e ≠ EStdout (lit "Devices:" ++ [NL]) ∧
                   ∀ text, e = EStdout text →
                     ∃ nm b, nm ∈ name <$> devices c ∧
                       text = nm ++ [TAB] ++ (if b : bool then lit "1" else lit "0") ++ [NL])
        in *.
      assert (∀ e, ok e → trace c' = trace c ++ [e] →
              ∃ tr', trace c' = EStdout (lit "Devices:" ++ [NL]) :: tr' ∧ Forall ok tr')
        as Hsnoc.
      { intros e He ->. exists (tr ++ [e]). rewrite Htr. split; [done|].
        apply Forall_app. split; [done|]. by constructor. }
      destruct ch as [|tid st]; simpl in Hstep.
      * unfold main_step in Hstep. destruct (mpc c) as [i|i].
        -- destruct (devices c !! i) as [d|] eqn:Ed; simplify_eq; simpl.
           ++ eapply Hsnoc; [|done]. split.
              ** intros [= H]. by apply (device_line_not_header (name d) (done d)).
              ** intros text [= <-]. exists (name d), (done d).
                 split; [|done]. apply list_elem_of_fmap. exists d. split; [done|].
                 by eapply list_elem_of_lookup_2.
           ++ eapply Hsnoc; [|done]. unfold sleepcp. by destruct (win32 p).
        -- destruct (devices c !! i) as [d|] eqn:Ed; simpl in Hstep; [|done].
           destruct (done d); simplify_eq; simpl; [|eauto].
           eapply Hsnoc; [|done]; done.
      * unfold worker_step in Hstep.
        destruct (allthreads c !! tid) as [t|]; simpl in Hstep; [|done].
        destruct (todo t) as [|[b|cmd] rest]; simplify_eq; simpl;
          (eapply Hsnoc; [|done]; done).
  - intros i d Hpc Hd.
    destruct (main_step_print p c i d Hpc Hd) as (c' & ? & ? & ? & ? & ? & ? & ?). eauto.
Qed.

(** ** Startup and the usage error *)

(** Against C6 as stated: called with one argument, [main] writes a single
    example line to standard error, not two. *)
Lemma C6_one_example_line :
  ∃ cerr,
    main linux_glibc (lit "./main") [lit "adb"] = Exited 1 cerr ∧
    length (example_lines cerr) = 1%nat ∧
    length (example_lines cerr) ≠ 2%nat.
Proof. eexists. split; [reflexivity|]. vm_compute. split; [done|lia]. Qed.

(** C6, amended. With fewer than four argument words (the program's name
    included) [main] writes two lines to standard error, one usage line and
    one example line, and exits with status 1; no configuration is ever
    reached, so no record is created and no worker started. With four words
    or more it always enters its loop, whatever the words are. *)
Theorem C6_usage_error (p : platform) (argv0 : cstring) (args : list cstring) :
  ((S (length args) < 4)%nat →
     main p argv0 args =
       Exited 1
         (lit "Usage: " ++ argv0 ++
          lit "adbpath sleeptime ADBDEVICE/ADBDEVICE1/ADBDEVICE2 ..." ++ [NL] ++
          lit "Example: " ++ argv0 ++
          lit "adb.exe 5000 127.0.0.1:5555/127.0.0.1:5570/127.0.0.1:5585/127.0.0.1:5590/127.0.0.1:5595"
          ++ [NL]) ∧
     ∀ c, ¬ reachable p argv0 args c) ∧
  ((4 ≤ S (length args))%nat →
     ∃ c, main p argv0 args = Started c ∧
          allthreads c = [] ∧ mpc c = ForPrint 0 ∧
          trace c = [EStdout (lit "Devices:" ++ [NL])]).
Proof.
  split; intros Hargc.
  - assert (main p argv0 args = Exited EXIT_FAILURE (usage_line argv0 ++ example_line argv0)) as E.
    { unfold main. rewrite decide_True by lia. done. }
    split.
    + rewrite E. unfold usage_line, example_line, EXIT_FAILURE. by rewrite <-!app_assoc.
    + intros c [sched H]. unfold boot in H. by rewrite E in H.
  - unfold main. rewrite decide_False by lia. by eexists.
Qed.

(** ** The interval *)

Lemma isdigit_not_other c :
  isdigit c = true → isspace c = false ∧ c ≠ "-"%char ∧ c ≠ "+"%char.
Proof. destruct c as [[] [] [] [] [] [] [] []]; vm_compute; intros; by split_and!. Qed.

Lemma atoi_digits_app ds : ∀ acc rest,
  forallb isdigit ds = true →
  atoi_digits acc (ds ++ rest) =
  atoi_digits (acc * 10 ^ Z.of_nat (length ds) + decimal_value ds) rest.
Proof.
  induction ds as [|c ds IH]; intros acc rest Hds.
  - simpl. f_equal. lia.
  - cbn [forallb] in Hds. apply andb_prop in Hds as [Hc Hds].
    cbn [app atoi_digits]. rewrite Hc, IH by done. f_equal.
    cbn [decimal_value length]. rewrite Nat2Z.inj_succ, Z.pow_succ_r by lia. lia.
Qed.

Lemma atoi_digits_stop acc rest :
  (∀ c, head rest = Some c → isdigit c = false) → atoi_digits acc rest = acc.
Proof. destruct rest as [|c r]; simpl; [done|]. intros H. by rewrite (H c). Qed.

Lemma atoi_value_unsigned c r :
  isspace c = false → c ≠ "-"%char → c ≠ "+"%char →
  atoi_value (c :: r) = atoi_digits 0 (c :: r).
Proof.
  intros Hs Hm Hp. unfold atoi_value. rewrite skip_spaces_head by done.
  by rewrite !decide_False.
Qed.

Lemma atoi_value_shape ws sg ds rest :
  forallb isspace ws = true →
  sg = [] ∨ sg = ["+"%char] ∨ sg = ["-"%char] →
  forallb isdigit ds = true →
  (∀ c, head rest = Some c → isdigit c = false) →
  (sg = [] → ds = [] →
     ∀ c, head rest = Some c → isspace c = false ∧ c ≠ "-"%char ∧ c ≠ "+"%char) →
  atoi_value (ws ++ sg ++ ds ++ rest) = sign_factor sg * decimal_value ds.
Proof.
  intros Hws Hsg Hds Hrest Hbare.
  assert (atoi_digits 0 (ds ++ rest) = decimal_value ds) as Hdigits.
  { rewrite atoi_digits_app, atoi_digits_stop by done. lia. }
  unfold atoi_value. rewrite skip_spaces_app by done.
  destruct Hsg as [-> | [-> | ->]]; cbn [app].
  - change (sign_factor []) with 1.
    destruct ds as [|c ds].
    + destruct rest as [|c r]; [done|].
      destruct (Hbare eq_refl eq_refl c eq_refl) as (Hs & Hm & Hp).
      cbn [app]. rewrite skip_spaces_head, !decide_False by done.
      cbn [app] in Hdigits. rewrite Hdigits. simpl. lia.
    + cbn [forallb] in Hds. apply andb_prop in Hds as [Hc _].
      destruct (isdigit_not_other c Hc) as (Hs & Hm & Hp).
      cbn [app]. rewrite skip_spaces_head, !decide_False by done.
      cbn [app] in Hdigits. rewrite Hdigits. lia.
  - change (sign_factor ["+"%char]) with 1.
    rewrite skip_spaces_head by done.
    rewrite decide_False, decide_True by done. rewrite Hdigits. lia.
  - change (sign_factor ["-"%char]) with (-1).
    rewrite skip_spaces_head by done.
    rewrite decide_True by done. rewrite Hdigits. lia.
Qed.

Lemma pretty_N_char_digit x :
  (x < 10)%N →
  isdigit (pretty_N_char x) = true ∧ digit_value (pretty_N_char x) = Z.of_N x.
Proof.
  intros Hx.
  assert (x = 0 ∨ x = 1 ∨ x = 2 ∨ x = 3 ∨ x = 4 ∨ x = 5 ∨ x = 6 ∨ x = 7 ∨ x = 8 ∨ x = 9)%N
    as H by lia.
  destruct_or!; subst x; by vm_compute.
Qed.

Lemma atoi_digits_pretty_N_go x : ∀ s,
  atoi_digits 0 (lit (pretty_N_go x s)) = atoi_digits (Z.of_N x) (lit s).
Proof.
  induction (N.lt_wf_0 x) as [x _ IH]; intros s.
  destruct (decide (x = 0)%N) as [->|Hx]; [by rewrite pretty_N_go_0|].
  rewrite pretty_N_go_step by lia.
  rewrite IH by (apply N.div_lt; lia).
  destruct (pretty_N_char_digit (x `mod` 10)) as [Hd Hv]; [by apply N.mod_lt|].
  cbn [lit list_ascii_of_string atoi_digits]. fold (lit s). rewrite Hd, Hv. f_equal.
  rewrite (N.div_mod x 10) at 3 by done. lia.
Qed.

Lemma pretty_N_go_head x : ∀ s,
  (0 < x)%N → ∃ c r, lit (pretty_N_go x s) = c :: r ∧ isdigit c = true.
Proof.
  induction (N.lt_wf_0 x) as [x _ IH]; intros s Hx.
  rewrite pretty_N_go_step by done.
  destruct (decide (x `div` 10 = 0)%N) as [->|Hdiv].
  - rewrite pretty_N_go_0. eexists _, _. split; [done|].
    by apply pretty_N_char_digit, N.mod_lt.
  - apply IH; [apply N.div_lt; lia|by apply N.neq_0_lt_0].
Qed.

Lemma atoi_value_pretty_N x : atoi_value (lit (pretty x)) = Z.of_N x.
Proof.
  unfold pretty, pretty_N. case_decide as Hx; [by subst x|].
  destruct (pretty_N_go_head x "") as (c & r & E & Hc); [lia|].
  destruct (isdigit_not_other c Hc) as (Hs & Hm & Hp).
  rewrite E, atoi_value_unsigned by done.
  by rewrite <-E, atoi_digits_pretty_N_go.
Qed.

Lemma atoi_value_pretty_Z (z : Z) : atoi_value (lit (pretty z)) = z.
Proof.
  destruct z as [|x|x]; [done|..].
  - change (pretty (Z.pos x)) with (pretty (N.pos x)). by rewrite atoi_value_pretty_N.
  - change (lit (pretty (Z.neg x))) with ("-"%char :: lit (pretty (N.pos x))).
    pose proof (atoi_value_pretty_N (N.pos x)) as H.
    unfold pretty, pretty_N in H |- *. rewrite decide_False in H |- * by done.
    destruct (pretty_N_go_head (N.pos x) "") as (c & r & E & Hc); [lia|].
    destruct (isdigit_not_other c Hc) as (Hs & Hm & Hp).
    rewrite E, atoi_value_unsigned in H by done.
    unfold atoi_value. rewrite skip_spaces_head by done.
    rewrite decide_True by done. rewrite E, H. lia.
Qed.

Lemma atoi_in_range p s : in_int (atoi_value s) = true → atoi p s = atoi_value s.
Proof. unfold atoi. by intros ->. Qed.

Example atoi_examples :
  atoi linux_glibc (lit "5000") = 5000 ∧
  atoi linux_glibc (TAB :: lit " +17") = 17 ∧
  atoi linux_glibc (lit "-0012") = -12 ∧
  atoi linux_glibc (lit "") = 0 ∧
  atoi linux_glibc (lit "five") = 0 ∧
  atoi linux_glibc (lit "+-5") = 0 ∧
  atoi linux_glibc (lit "2147483647") = 2147483647 ∧
  atoi linux_glibc (lit "-2147483648") = -2147483648.
Proof. by vm_compute. Qed.

(** Against C7 as stated: the text 5000ms is no numeral, and it decodes to
    5000 on every platform, not to 0; the numeral 2147483648 is out of the
    range of [int], and on glibc it does not decode to 0 either. *)
Lemma C7_trailing_characters :
  is_numeral (lit "5000ms") = false ∧
  (∀ p, atoi p (lit "5000ms") = 5000 ∧ atoi p (lit "5000ms") ≠ 0) ∧
  is_numeral (lit "2147483648") = true ∧
  in_int 2147483648 = false ∧
  atoi linux_glibc (lit "2147483648") = -2147483648 ∧
  atoi linux_glibc (lit "2147483648") ≠ 0.
Proof. split_and!; [done| |done|done|done|by vm_compute]. intros p. by vm_compute. Qed.

(** C7, amended. [atoi] reads the interval in base 10: it skips leading
    white space, reads one optional sign and then the longest run of digits,
    and ignores what follows that run. When the signed value of the run fits
    an [int] the result is that value exactly, 0 when the run is empty; so
    every numeral in range, as printed in base 10, decodes to its value. *)
Theorem C7_interval_decoding (p : platform) :
  (∀ ws sg ds rest : cstring,
     forallb isspace ws = true →
     sg = [] ∨ sg = ["+"%char] ∨ sg = ["-"%char] →
     forallb isdigit ds = true →
     (∀ c, head rest = Some c → isdigit c = false) →
     (sg = [] → ds = [] →
        ∀ c, head rest = Some c → isspace c = false ∧ c ≠ "-"%char ∧ c ≠ "+"%char) →
     in_int (sign_factor sg * decimal_value ds) = true →
     atoi p (ws ++ sg ++ ds ++ rest) = sign_factor sg * decimal_value ds) ∧
  (∀ z : Z, INT_MIN ≤ z ≤ INT_MAX → atoi p (lit (pretty z)) = z).
Proof.
  split.
  - intros ws sg ds rest Hws Hsg Hds Hrest Hbare Hin.
    rewrite atoi_in_range; rewrite atoi_value_shape by done; done.
  - intros z Hz. rewrite atoi_in_range; rewrite atoi_value_pretty_Z; [done|].
    unfold in_int. apply andb_true_intro. split; apply Z.leb_le; lia.
Qed.

(** ** The sleep *)

(** Against C10 as stated: for the interval 3000000, which lies above
    2147483, [usleep] is asked for 3000000000 microseconds, which is
    3000000 milliseconds exactly; and for the interval -1, which lies below
    0, the product taken in [int] is -1000, which is -1 times 1000
    exactly. *)
Lemma C10_exact_outside_bounds :
  INT_MIN ≤ 3000000 ≤ INT_MAX ∧
  ¬ (0 ≤ 3000000 ≤ 2147483) ∧
  sleepcp linux_glibc 3000000 = EUsleep (3000000 * 1000) ∧
  INT_MIN ≤ -1 ≤ INT_MAX ∧
  ¬ (0 ≤ -1 ≤ 2147483) ∧
  usleep_arg (-1) = -1 * 1000.
Proof. unfold INT_MIN, INT_MAX. repeat split; try lia; by vm_compute. Qed.

(** C10, amended. On a build without [_WIN32] the loop calls [usleep] with
    [m * 1000] for the decoded interval [m], the product being taken in
    [int]: it is [m * 1000] modulo 2^32, read as a signed number, which is
    [m * 1000] exactly when [m] lies between -2147483 and 2147483; for every
    larger [m] the product does not fit an [int]. [usleep] receives that
    number as an unsigned one, [m * 1000] modulo 2^32 microseconds; the
    suspension asked for is [m] milliseconds exactly when [m] lies between
    0 and 4294967. *)
Theorem C10_usleep_argument (p : platform) (m : Z) :
  win32 p = false →
  INT_MIN ≤ m ≤ INT_MAX →
  sleepcp p m = EUsleep (to_unsigned (usleep_arg m)) ∧
  usleep_arg m =
    (let r := (m * 1000) mod 2 ^ 32 in if r <? 2 ^ 31 then r else r - 2 ^ 32) ∧
  (usleep_arg m = m * 1000 ↔ -2147483 ≤ m ≤ 2147483) ∧
  (2147483 < m → INT_MAX < m * 1000) ∧
  to_unsigned (usleep_arg m) = (m * 1000) mod 2 ^ 32 ∧
  (to_unsigned (usleep_arg m) = m * 1000 ↔ 0 ≤ m ≤ 4294967).
Proof.
  intros Hp Hm. unfold INT_MIN, INT_MAX in *.
  change (2 ^ 32) with 4294967296. change (2 ^ 31) with 2147483648.
  assert (∀ z, to_int z =
            if z mod 4294967296 <? 2147483648 then z mod 4294967296
            else z mod 4294967296 - 4294967296) as Hwrap.
  { intros z. unfold to_int.
    change (2 ^ 32) with 4294967296. change (2 ^ 31) with 2147483648.
    destruct (Z.ltb_spec (z mod 4294967296) 2147483648);
      Z.to_euclidean_division_equations; lia. }
  assert (to_unsigned (usleep_arg m) = (m * 1000) mod 4294967296) as Hunsigned.
  { unfold to_unsigned, usleep_arg, to_int.
    change (2 ^ 32) with 4294967296. change (2 ^ 31) with 2147483648.
    Z.to_euclidean_division_equations; lia. }
  split_and!.
  - unfold sleepcp. by rewrite Hp.
  - unfold usleep_arg. cbv zeta. apply Hwrap.
  - unfold usleep_arg, to_int.
    change (2 ^ 32) with 4294967296. change (2 ^ 31) with 2147483648.
    split; intros H; Z.to_euclidean_division_equations; lia.
  - lia.
  - exact Hunsigned.
  - rewrite Hunsigned. split; intros H; Z.to_euclidean_division_equations; lia.
Qed.

(** ** The sample run *)

Lemma sample_started_reachable : reachable linux_glibc (lit "./main") sample_args sample_started.
Proof. exists [RunMain; RunMain]. reflexivity. Defined.

Lemma C1_worker_lifecycle_sample :
  reachable linux_glibc (lit "./main") sample_args sample_started ∧
  allthreads sample_started !! 0%nat =
    Some {| dev := 0;
            todo := systemthread (lit "adb.exe") (new_device (lit "127.0.0.1:5555")) |} ∧
  performed 0 (trace sample_started) = [] ∧
  ∃ c1 c4,
    worker_step 0 0 sample_started = Some c1 ∧ flag c1 0 = Some false ∧
    run linux_glibc [RunWorker 0 0; RunWorker 0 0; RunWorker 0 256; RunWorker 0 0]
      sample_started = Some c4 ∧
    flag c4 0 = Some true ∧ worker_step 0 0 c4 = None.
Proof.
  split; [exact sample_started_reachable|]. split; [reflexivity|]. split; [reflexivity|].
  destruct (C1_worker_lifecycle linux_glibc (lit "./main") sample_args sample_started 0 _
              0 0 256 0 0 sample_started_reachable eq_refl) as (d & _ & _ & Hrun).
  destruct (Hrun eq_refl)
    as (c1 & c2 & c3 & c4 & S1 & _ & F1 & S2 & _ & _ & S3 & _ & _ & S4 & _ & F4 & S5).
  exists c1, c4. cbn [run step]. rewrite S1. cbn [mbind option_bind].
  rewrite S2. cbn [mbind option_bind]. rewrite S3. cbn [mbind option_bind].
  rewrite S4. cbn [mbind option_bind]. repeat split; assumption.
Defined.


Lemma C3_parser_contract_sample :
  join_with SLASH [lit "a "; lit " b"] = lit "a / b" ∧
  Forall (λ seg, SLASH ∉ seg) [lit "a "; lit " b"] ∧
  Forall2 is_trim_of [lit "a "; lit " b"] [lit "a"; lit "b"] ∧
  name <$> get_devices (lit "a / b") = filter (λ t, t ≠ []) [lit "a"; lit "b"].
Proof.
  assert (Forall (λ seg, SLASH ∉ seg) [lit "a "; lit " b"]) as Hno.
  { repeat constructor; intros H; repeat (inversion_clear H as [|? ? ? H']; rename H' into H). }
  assert (Forall2 is_trim_of [lit "a "; lit " b"] [lit "a"; lit "b"]) as Htrim.
  { repeat constructor.
    - exists [], (lit " "). repeat split; intros c [= <-]; reflexivity.
    - exists (lit " "), []. repeat split; intros c [= <-]; reflexivity. }
  split; [reflexivity|]. split; [exact Hno|]. split; [exact Htrim|].
  exact (proj1 (proj2 C3_parser_contract) (lit "a / b") [lit "a "; lit " b"]
           [lit "a"; lit "b"] eq_refl Hno Htrim).
Defined.

Lemma C4_device_table_sample :
  join_with SLASH [lit " a "; lit " "; lit "b"] = lit " a / /b" ∧
  Forall (λ seg, SLASH ∉ seg) [lit " a "; lit " "; lit "b"] ∧
  Forall2 is_trim_of [lit " a "; lit " "; lit "b"] [lit "a"; []; lit "b"] ∧
  ∃ c0,
    boot linux_glibc (lit "./main") [lit "adb.exe"; lit "5000"; lit " a / /b"] = Some c0 ∧
    devices c0 = [{| name := lit "a"; done := true |}; {| name := lit "b"; done := true |}] ∧
    ∀ c, reachable linux_glibc (lit "./main") [lit "adb.exe"; lit "5000"; lit " a / /b"] c →
         name <$> devices c = [lit "a"; lit "b"].
Proof.
  assert (Forall (λ seg, SLASH ∉ seg) [lit " a "; lit " "; lit "b"]) as Hno.
  { repeat constructor; intros H; repeat (inversion_clear H as [|? ? ? H']; rename H' into H). }
  assert (Forall2 is_trim_of [lit " a "; lit " "; lit "b"] [lit "a"; []; lit "b"]) as Htrim.
  { repeat constructor.
    - exists (lit " "), (lit " "). repeat split; intros c [= <-]; reflexivity.
    - exists (lit " "), []. repeat split; intros c [=].
    - exists [], []. repeat split; intros c [= <-]; reflexivity. }
  split; [reflexivity|]. split; [exact Hno|]. split; [exact Htrim|].
  destruct (C4_device_table linux_glibc (lit "./main") (lit "adb.exe") (lit "5000")
              (lit " a / /b") [])
    as (c0 & Hboot & _ & _ & Hall & _ & _ & Hreach & _).
  exists c0. split; [exact Hboot|].
  pose proof (Hall [lit " a "; lit " "; lit "b"] [lit "a"; []; lit "b"] eq_refl Hno Htrim)
    as Hdev.
  split; [exact Hdev|].
  intros c Hc. destruct (Hreach c Hc) as (Hnames & _). rewrite Hnames, Hdev. reflexivity.
Defined.

Lemma C5_worker_commands_sample :
  reachable linux_glibc (lit "./main") sample_args sample_started ∧
  allthreads sample_started !! 0%nat =
    Some {| dev := 0;
            todo := systemthread (lit "adb.exe") (new_device (lit "127.0.0.1:5555")) |} ∧
  performed 0 (trace sample_started) = [] ∧
  ∃ c',
    run linux_glibc [RunWorker 0 0; RunWorker 0 1; RunWorker 0 256; RunWorker 0 0]
      sample_started = Some c' ∧
    trace c' =
      trace sample_started ++
      [EStore 0 0 false;
       ESystem 0 (lit "adb.exe connect 127.0.0.1:5555") 1;
       ESystem 0 (lit "adb.exe -s 127.0.0.1:5555 shell am instrument -w -r -e debug false -e class com.github.uiautomator.stub.Stub com.github.uiautomator.test/androidx.test.runner.AndroidJUnitRunner") 256;
       EStore 0 0 true].
Proof.
  split; [exact sample_started_reachable|]. split; [reflexivity|]. split; [reflexivity|].
  destruct (C5_worker_commands linux_glibc (lit "./main") (lit "adb.exe") (lit "5000")
              (lit "127.0.0.1:5555/127.0.0.1:5570") [] sample_started 0 _
              sample_started_reachable eq_refl) as (nm & Hnm & _ & _ & Hfresh & _).
  injection Hnm as <-.
  destruct (Hfresh eq_refl 0 1 256 0) as (c' & Hrun & Htrace).
  exists c'. split; [exact Hrun|exact Htrace].
Defined.

Lemma C6_usage_error_sample :
  (S (length [lit "adb.exe"; lit "5000"]) < 4)%nat ∧
  main linux_glibc (lit "./main") [lit "adb.exe"; lit "5000"] =
    Exited 1
      (lit "Usage: ./mainadbpath sleeptime ADBDEVICE/ADBDEVICE1/ADBDEVICE2 ..." ++ [NL] ++
       lit "Example: ./mainadb.exe 5000 127.0.0.1:5555/127.0.0.1:5570/127.0.0.1:5585/127.0.0.1:5590/127.0.0.1:5595" ++ [NL]) ∧
  (4 ≤ S (length sample_args))%nat ∧
  ∃ c, main linux_glibc (lit "./main") sample_args = Started c ∧ allthreads c = [].
Proof.
  assert (S (length [lit "adb.exe"; lit "5000"]) < 4)%nat as H1 by (simpl; lia).
  assert (4 ≤ S (length sample_args))%nat as H2 by (simpl; lia).
  split; [exact H1|]. split.
  - exact (proj1 (proj1 (C6_usage_error linux_glibc (lit "./main") _) H1)).
  - split; [exact H2|].
    destruct (proj2 (C6_usage_error linux_glibc (lit "./main") _) H2) as (c & Hc & Ht & _).
    exists c. split; [exact Hc|exact Ht].
Defined.

Lemma C7_interval_decoding_sample :
  atoi linux_glibc (lit "  -42abc") = -42 ∧
  atoi linux_glibc (lit "abc") = 0 ∧
  atoi linux_glibc (lit "5000") = 5000.
Proof.
  split_and!.
  - apply (proj1 (C7_interval_decoding linux_glibc)
             (lit "  ") (lit "-") (lit "42") (lit "abc")); try reflexivity.
    + right. right. reflexivity.
    + intros c [= <-]. reflexivity.
    + discriminate.
  - apply (proj1 (C7_interval_decoding linux_glibc) [] [] [] (lit "abc")); try reflexivity.
    + left. reflexivity.
    + intros c [= <-]. reflexivity.
    + intros _ _ c [= <-]. split; [reflexivity|]. split; discriminate.
  - apply (proj2 (C7_interval_decoding linux_glibc) 5000). unfold INT_MIN, INT_MAX. lia.
Defined.

Lemma C8_duplicate_workers_sample :
  get_devices (lit "127.0.0.1:5555/127.0.0.1:5570") ≠ [] ∧
  ∃ sched c tid1 tid2 i d,
    boot linux_glibc (lit "./main") sample_args ≫= run linux_glibc sched = Some c ∧
    tid1 ≠ tid2 ∧
    devices c !! i = Some d ∧
    allthreads c !! tid1 =
      Some {| dev := i;
              todo := [ASystem (connect_cmd (lit "adb.exe") d);
                       ASystem (run_server (lit "adb.exe") d); AStore true] |} ∧
    allthreads c !! tid2 =
      Some {| dev := i;
              todo := [ASystem (connect_cmd (lit "adb.exe") d);
                       ASystem (run_server (lit "adb.exe") d); AStore true] |}.
Proof.
  assert (get_devices (lit "127.0.0.1:5555/127.0.0.1:5570") ≠ []) as H by discriminate.
  split; [exact H|].
  exact (C8_duplicate_workers linux_glibc (lit "./main") (lit "adb.exe") (lit "5000")
           (lit "127.0.0.1:5555/127.0.0.1:5570") [] H).
Defined.

Lemma C9_stdout_format_sample :
  reachable linux_glibc (lit "./main") sample_args sample_started ∧
  ∃ tr, trace sample_started = EStdout (lit "Devices:" ++ [NL]) :: tr ∧
        Forall (λ e, e ≠ EStdout (lit "Devices:" ++ [NL]) ∧
                  ∀ text, e = EStdout text →
                    ∃ nm b, nm ∈ name <$> devices sample_started ∧
                            text = nm ++ [TAB] ++ (if b : bool then lit "1" else lit "0") ++ [NL])
               tr.
Proof.
  split; [exact sample_started_reachable|].
  exact (proj1 (C9_stdout_format _ _ _ _ sample_started_reachable)).
Defined.

Lemma C10_usleep_argument_sample :
  win32 linux_glibc = false ∧
  INT_MIN ≤ 5000 ≤ INT_MAX ∧
  sleepcp linux_glibc 5000 = EUsleep (to_unsigned (usleep_arg 5000)) ∧
  usleep_arg 5000 = 5000 * 1000 ∧
  to_unsigned (usleep_arg 5000) = 5000 * 1000.
Proof.
  assert (INT_MIN ≤ 5000 ≤ INT_MAX) as H by (unfold INT_MIN, INT_MAX; lia).
  split; [reflexivity|]. split; [exact H|].
  destruct (C10_usleep_argument linux_glibc 5000 eq_refl H) as (Hs & _ & Hi & _ & _ & Hu).
  split; [exact Hs|]. split; [apply Hi; lia|apply Hu; lia].
Defined.

(** * Further properties of the code *)

(** ** The stripping functions *)

Lemma lstrip_decompose s :
  ∃ ws, s = ws ++ lstrip_spaces_inplace s ∧
        forallb isspace ws = true ∧
        (∀ c, head (lstrip_spaces_inplace s) = Some c → isspace c = false).
Proof.
  rewrite lstrip_spaces_inplace_drop.
  set (ns := λ ch, negb (isspace ch)).
  exists (take (find_if ns s) s). split_and!.
  - by rewrite take_drop.
  - rewrite <-forallb_not_not_space. apply find_if_take.
  - intros c Hc. apply (find_if_head ns) in Hc. unfold ns in Hc. by destruct (isspace c).
Qed.

Lemma rstrip_decompose s :
  ∃ ws, s = rstrip_spaces_inplace s ++ ws ∧
        forallb isspace ws = true ∧
        (∀ c, last (rstrip_spaces_inplace s) = Some c → isspace c = false).
Proof.
  rewrite rstrip_spaces_inplace_take.
  set (ns := λ ch, negb (isspace ch)). set (k := find_if ns (reverse s)).
  exists (drop (length s - k) s). split_and!.
  - by rewrite take_drop.
  - rewrite <-forallb_reverse, <-forallb_not_not_space.
    replace (reverse (drop (length s - k) s)) with (take k (reverse s))
      by apply take_reverse.
    apply find_if_take.
  - intros c Hc. rewrite <-head_reverse in Hc.
    replace (reverse (take (length s - k) s)) with (drop k (reverse s)) in Hc
      by apply drop_reverse.
    apply (find_if_head ns) in Hc. unfold ns in Hc. by destruct (isspace c).
Qed.

(** X1. [lstrip_spaces_inplace] removes the longest prefix of white space
    and nothing else: the input is a run of white space followed by the
    result, and the result does not start with white space. *)
Theorem X1_lstrip_longest_prefix (s : cstring) :
  ∃ ws, s = ws ++ lstrip_spaces_inplace s ∧
        forallb isspace ws = true ∧
        (∀ c, head (lstrip_spaces_inplace s) = Some c → isspace c = false).
Proof. apply lstrip_decompose. Qed.

(** X2. [rstrip_spaces_inplace] removes the longest suffix of white space
    and nothing else: the input is the result followed by a run of white
    space, and the result does not end with white space. *)
Theorem X2_rstrip_longest_suffix (s : cstring) :
  ∃ ws, s = rstrip_spaces_inplace s ++ ws ∧
        forallb isspace ws = true ∧
        (∀ c, last (rstrip_spaces_inplace s) = Some c → isspace c = false).
Proof. apply rstrip_decompose. Qed.

Lemma last_app_nonempty {A} (l1 l2 : list A) : l2 ≠ [] → last (l1 ++ l2) = last l2.
Proof.
  intros H. destruct (last l2) as [x|] eqn:E.
  - by apply last_app_Some; left.
  - apply last_None in E. done.
Qed.

Lemma lstrip_rstrip_trim s :
  is_trim_of s (lstrip_spaces_inplace (rstrip_spaces_inplace s)).
Proof.
  destruct (rstrip_decompose s) as (after & Hs & Hafter & Hlast).
  destruct (lstrip_decompose (rstrip_spaces_inplace s)) as (before & Ht & Hbefore & Hhead).
  set (t := lstrip_spaces_inplace (rstrip_spaces_inplace s)) in *.
  exists before, after. split_and!; [|done..|].
  - rewrite Hs at 1. rewrite Ht at 1. by rewrite <-app_assoc.
  - intros c Hc. apply Hlast. rewrite Ht.
    rewrite last_app_nonempty; [done|]. intros E. by rewrite E in Hc.
Qed.

(** X3. The two one-sided strips commute: stripping the right end first and
    the left end second gives what [strip_spaces_inplace] gives. *)
Theorem X3_strips_commute (s : cstring) :
  lstrip_spaces_inplace (rstrip_spaces_inplace s) = strip_spaces_inplace s ∧
  rstrip_spaces_inplace (lstrip_spaces_inplace s) = strip_spaces_inplace s.
Proof.
  split; [|by rewrite strip_spaces_inplace_eq].
  eapply is_trim_of_unique; [apply lstrip_rstrip_trim|apply strip_spaces_inplace_trim].
Qed.

Lemma strip_fixed_point s :
  strip_spaces_inplace s = s ↔
  (∀ c, head s = Some c → isspace c = false) ∧
  (∀ c, last s = Some c → isspace c = false).
Proof.
  split.
  - intros E. destruct (strip_spaces_inplace_trim s) as (? & ? & _ & _ & _ & Hh & Hl).
    rewrite E in Hh, Hl. done.
  - intros [Hh Hl]. eapply is_trim_of_unique; [apply strip_spaces_inplace_trim|].
    exists [], []. by rewrite app_nil_r.
Qed.

Lemma strip_idempotent s :
  strip_spaces_inplace (strip_spaces_inplace s) = strip_spaces_inplace s.
Proof.
  apply strip_fixed_point.
  by destruct (strip_spaces_inplace_trim s) as (? & ? & _ & _ & _ & Hh & Hl).
Qed.

(** X4. [strip_spaces_inplace] is idempotent, and the strings it leaves as
    they are are exactly those that neither start nor end with white
    space. *)
Theorem X4_strip_idempotent_fixed_points (s : cstring) :
  strip_spaces_inplace (strip_spaces_inplace s) = strip_spaces_inplace s ∧
  (strip_spaces_inplace s = s ↔
   (∀ c, head s = Some c → isspace c = false) ∧
   (∀ c, last s = Some c → isspace c = false)).
Proof. split; [apply strip_idempotent|apply strip_fixed_point]. Qed.

Lemma strip_empty_iff s :
  strip_spaces_inplace s = [] ↔ forallb isspace s = true.
Proof.
  split.
  - intros E. destruct (strip_spaces_inplace_trim s) as (b & a & Hs & Hb & Ha & _).
    rewrite E in Hs. rewrite Hs, !forallb_app, Hb, Ha. done.
  - intros H. eapply is_trim_of_unique; [apply strip_spaces_inplace_trim|].
    exists s, []. by rewrite !app_nil_r.
Qed.

(** X5. [strip_spaces_inplace] gives the empty string exactly for the
    strings that hold nothing but white space (the empty string among
    them); every other string keeps at least one character. *)
Theorem X5_strip_empty_iff_blank (s : cstring) :
  strip_spaces_inplace s = [] ↔ forallb isspace s = true.
Proof. apply strip_empty_iff. Qed.

(** X6. Stripping never adds or alters a character: the result is a
    contiguous part of the input, so it is no longer than the input, and it
    is shorter exactly when the input starts or ends with white space. *)
Theorem X6_strip_is_infix (s : cstring) :
  (∃ before after, s = before ++ strip_spaces_inplace s ++ after) ∧
  (length (strip_spaces_inplace s) ≤ length s)%nat ∧
  ((length (strip_spaces_inplace s) < length s)%nat ↔
   (∃ c, head s = Some c ∧ isspace c = true) ∨
   (∃ c, last s = Some c ∧ isspace c = true)).
Proof.
  destruct (strip_spaces_inplace_trim s) as (b & a & Hs & Hb & Ha & Hh & Hl).
  assert (length s = length b + length (strip_spaces_inplace s) + length a)%nat as Hlen.
  { rewrite Hs at 1. rewrite !length_app. lia. }
  split_and!; [by eauto|lia|]. split.
  - intros Hlt.
    destruct (decide (strip_spaces_inplace s = s)) as [E|E]; [rewrite E in Hlt; lia|].
    rewrite strip_fixed_point in E.
    destruct (head s) as [c|] eqn:Ehead.
    + destruct (isspace c) eqn:Ec; [left; eauto|].
      destruct (last s) as [c'|] eqn:Elast.
      * destruct (isspace c') eqn:Ec'; [right; eauto|].
        destruct E. split; intros ? [= <-]; done.
      * apply last_None in Elast. by subst s.
    + destruct E. split; intros ? ?; [done|]. by destruct s.
  - intros H. destruct (decide (strip_spaces_inplace s = s)) as [E|E].
    + apply strip_fixed_point in E as [Hh' Hl'].
      destruct H as [(c & Hc & Hsp)|(c & Hc & Hsp)];
        [rewrite (Hh' c Hc) in Hsp|rewrite (Hl' c Hc) in Hsp]; done.
    + assert (length (strip_spaces_inplace s) ≠ length s); [|lia].
      intros Heq. apply E.
      assert (length b = 0 ∧ length a = 0)%nat as [Hb0 Ha0] by lia.
      apply nil_length_inv in Hb0, Ha0. subst b a.
      rewrite app_nil_r in Hs. done.
Qed.

(** ** The device list *)

Lemma split_nonempty_append delim a b :
  split_nonempty delim (a ++ delim :: b) =
  split_nonempty delim a ++ split_nonempty delim b.
Proof.
  induction a as [|c a IH]; cbn [app split_nonempty].
  - by rewrite decide_True.
  - rewrite IH. case_decide; [done|].
    destruct (split_nonempty_cons delim a) as (seg & segs & ->). done.
Qed.

Lemma split_nonempty_length delim s :
  length (split_nonempty delim s) = S (length (filter (λ c, c = delim) s)).
Proof.
  induction s as [|c s IH]; [done|].
  cbn [split_nonempty]. rewrite filter_cons. case_decide.
  - simpl. by rewrite IH.
  - destruct (split_nonempty_cons delim s) as (seg & segs & E).
    rewrite E in *. simpl in *. done.
Qed.

(** The one segment the split view of the empty string lacks strips to the
    empty string, which [get_devices] drops anyway. *)
Lemma stripped_segments delim s :
  filter (λ t, t ≠ []) (strip_spaces_inplace <$> views_split delim s) =
  filter (λ t, t ≠ []) (strip_spaces_inplace <$> split_nonempty delim s).
Proof. by destruct s. Qed.

Lemma get_devices_new_device s : get_devices s = new_device <$> (name <$> get_devices s).
Proof.
  rewrite get_devices_eq. induction (filter _ _) as [|t l IH]; [done|].
  rewrite !fmap_cons, <-IH. done.
Qed.

Lemma get_devices_elem s d :
  d ∈ get_devices s →
  ∃ seg, seg ∈ views_split SLASH s ∧ d = new_device (strip_spaces_inplace seg) ∧
         strip_spaces_inplace seg ≠ [].
Proof.
  rewrite get_devices_eq.
  intros (t & -> & [Ht (seg & -> & Hseg)%list_elem_of_fmap]%list_elem_of_filter)%list_elem_of_fmap.
  eauto.
Qed.

Lemma join_with_elem delim seg segs :
  seg ∈ segs → ∃ l1 l2, join_with delim segs = l1 ++ seg ++ l2.
Proof.
  induction segs as [|seg' segs IH]; [by intros ?%elem_of_nil|].
  intros [->|Hin]%elem_of_cons.
  - destruct segs as [|seg'' segs].
    + exists [], []. by rewrite app_nil_r.
    + rewrite join_with_cons. by exists [], (delim :: join_with delim (seg'' :: segs)).
  - destruct segs as [|seg'' segs]; [by apply elem_of_nil in Hin|].
    destruct (IH Hin) as (l1 & l2 & E).
    rewrite join_with_cons, E. exists (seg' ++ delim :: l1), l2.
    by rewrite <-app_assoc.
Qed.

Lemma get_devices_nil_iff s :
  get_devices s = [] ↔ Forall (λ seg, forallb isspace seg = true) (views_split SLASH s).
Proof.
  rewrite get_devices_eq.
  induction (views_split SLASH s) as [|seg segs IH].
  - split; [constructor|done].
  - rewrite fmap_cons, filter_cons, Forall_cons, <-IH, <-strip_empty_iff.
    case_decide as Hseg; [|tauto].
    split; [done|]. by intros [? _].
Qed.

Lemma join_with_Forall (P : ascii → Prop) delim segs :
  P delim →
  Forall P (join_with delim segs) ↔ Forall (Forall P) segs.
Proof.
  intros Hdelim. induction segs as [|seg segs IH].
  - split; constructor.
  - destruct segs as [|seg' segs].
    + simpl. rewrite Forall_cons. split; [by split|by intros [? _]].
    + rewrite join_with_cons, Forall_app, (Forall_cons P delim), IH, (Forall_cons _ seg).
      tauto.
Qed.

(** X7. The table is empty exactly when the device list holds nothing but
    '/' and white space: such a list, the empty one among them, gives no
    record and no error. *)
Theorem X7_get_devices_empty_iff (s : cstring) :
  get_devices s = [] ↔ Forall (λ c, c = SLASH ∨ isspace c = true) s.
Proof.
  rewrite get_devices_nil_iff.
  rewrite <-(join_views_split SLASH s) at 2.
  rewrite join_with_Forall by by left.
  pose proof (views_split_no_delim SLASH s) as Hno.
  induction Hno as [|seg segs Hseg _ IH]; [done|].
  rewrite !Forall_cons, IH.
  assert (forallb isspace seg = true ↔ Forall (λ c, c = SLASH ∨ isspace c = true) seg)
    as ->; [|done].
  rewrite forallb_forall, Forall_forall. split.
  - intros H c Hc. right. by apply H, list_elem_of_In.
  - intros H c Hc%list_elem_of_In. destruct (H c Hc) as [->|?]; done.
Qed.

(** X8. Every record of the table has its flag idle and a name that is not
    empty, holds no '/', neither starts nor ends with white space, and
    stands in the device list character for character. *)
Theorem X8_get_devices_names_wellformed (s : cstring) (d : DeviceInfo) :
  d ∈ get_devices s →
  done d = true ∧
  name d ≠ [] ∧
  (SLASH ∉ name d) ∧
  (∀ c, head (name d) = Some c → isspace c = false) ∧
  (∀ c, last (name d) = Some c → isspace c = false) ∧
  ∃ l1 l2, s = l1 ++ name d ++ l2.
Proof.
  intros (seg & Hseg & -> & Hne)%get_devices_elem. simpl.
  destruct (strip_spaces_inplace_trim seg) as (b & a & Hs & _ & _ & Hh & Hl).
  pose proof (views_split_no_delim SLASH s) as Hno.
  rewrite Forall_forall in Hno. specialize (Hno seg Hseg).
  split_and!; [done..| |done|done|].
  - intros Hin. apply Hno. rewrite Hs. set_solver.
  - destruct (join_with_elem SLASH seg _ Hseg) as (l1 & l2 & E).
    rewrite join_views_split in E.
    exists (l1 ++ b), (a ++ l2). rewrite E. rewrite Hs at 1. by rewrite <-!app_assoc.
Qed.

(** X9. Parsing distributes over the delimiter: the table of two lists
    joined by a '/' is the table of the first followed by the table of the
    second, whatever the two lists are. *)
Theorem X9_get_devices_append (a b : cstring) :
  get_devices (a ++ SLASH :: b) = get_devices a ++ get_devices b.
Proof.
  rewrite !get_devices_eq, !stripped_segments, split_nonempty_append.
  by rewrite fmap_app, filter_app, fmap_app.
Qed.

(** X10. Parsing is stable under printing: the names of the table, joined
    by '/', parse to the same table again. *)
Theorem X10_get_devices_round_trip (s : cstring) :
  get_devices (join_with SLASH (name <$> get_devices s)) = get_devices s.
Proof.
  set (names := name <$> get_devices s).
  assert (Forall (λ nm, nm ≠ [] ∧ (SLASH ∉ nm) ∧ strip_spaces_inplace nm = nm) names) as Hnames.
  { apply Forall_forall. intros nm (d & -> & Hd)%list_elem_of_fmap.
    apply get_devices_elem in Hd as (seg & Hseg & -> & Hne). simpl.
    split_and!; [done| |apply strip_idempotent].
    destruct (strip_spaces_inplace_trim seg) as (b' & a' & Hs & _).
    pose proof (views_split_no_delim SLASH s) as Hno.
    rewrite Forall_forall in Hno. specialize (Hno seg Hseg).
    intros Hin. apply Hno. rewrite Hs. set_solver. }
  rewrite (get_devices_new_device s), (get_devices_new_device (join_with _ _)).
  fold names. f_equal. rewrite get_devices_names.
  assert (views_split SLASH (join_with SLASH names) = names) as ->.
  { destruct (views_split_join SLASH names) as [E|[_ E]]; [|done|].
    - eapply Forall_impl; [exact Hnames|]. by intros nm (_ & ? & _).
    - rewrite E in Hnames. inversion Hnames as [|? ? [? _]]. done. }
  induction Hnames as [|nm l (Hne & _ & Hfix) _ IH]; [done|].
  rewrite fmap_cons, filter_cons, Hfix, decide_True by done. by rewrite IH.
Qed.

(** X11. The table has at most one record more than the device list has
    '/' characters. *)
Theorem X11_get_devices_length_bound (s : cstring) :
  (length (get_devices s) ≤ S (length (filter (λ c, c = SLASH) s)))%nat.
Proof.
  rewrite get_devices_eq, stripped_segments, length_fmap.
  etrans; [apply length_filter|].
  by rewrite length_fmap, split_nonempty_length.
Qed.

(** ** The sleep on either build *)

(** X12. On a build with [_WIN32] the interval goes to [Sleep] without any
    arithmetic: every non-negative [int] is passed as it is, and a negative
    one arrives as that number plus 2^32. *)
Theorem X12_sleepcp_windows (p : platform) (m : Z) :
  win32 p = true →
  INT_MIN ≤ m ≤ INT_MAX →
  (0 ≤ m → sleepcp p m = ESleep m) ∧
  (m < 0 → sleepcp p m = ESleep (m + 2 ^ 32)).
Proof.
  intros Hp Hm. unfold INT_MIN, INT_MAX in Hm. unfold sleepcp, to_unsigned. rewrite Hp.
  change (2 ^ 32) with 4294967296.
  split; intros H; f_equal; Z.to_euclidean_division_equations; lia.
Qed.

(** X13. On a build without [_WIN32], the [int] product wrapping around,
    [usleep] receives [m * 1000] modulo 2^32 as its unsigned argument; this
    is [m] milliseconds exactly when [m] is between 0 and 4294967. *)
Theorem X13_sleepcp_posix_unsigned (p : platform) (m : Z) :
  win32 p = false →
  INT_MIN ≤ m ≤ INT_MAX →
  sleepcp p m = EUsleep ((m * 1000) mod 2 ^ 32) ∧
  ((m * 1000) mod 2 ^ 32 = m * 1000 ↔ 0 ≤ m ≤ 4294967).
Proof.
  intros Hp Hm. unfold INT_MIN, INT_MAX in Hm.
  unfold sleepcp, to_unsigned, usleep_arg, to_int. rewrite Hp.
  change (2 ^ 32) with 4294967296. change (2 ^ 31) with 2147483648.
  split; [f_equal|split; intros H]; Z.to_euclidean_division_equations; lia.
Qed.

(** ** Workers in flight *)

Lemma todo_shape c tid t :
  invariant c → allthreads c !! tid = Some t →
  ∃ d, devices c !! dev t = Some d ∧
    (todo t = systemthread (adb_exe c) d ∨
     todo t = [ASystem (connect_cmd (adb_exe c) d); ASystem (run_server (adb_exe c) d);
               AStore true] ∨
     todo t = [ASystem (run_server (adb_exe c) d); AStore true] ∨
     todo t = [AStore true] ∨
     todo t = []).
Proof.
  intros Hinv Ht. destruct (inv_threads c Hinv tid t Ht) as (d & Hd & Hp).
  exists d. split; [done|]. unfold systemthread in *.
  destruct (performed tid (trace c)) as [|? [|? [|? [|? [|? ?]]]]];
    simplify_eq/=; auto 10.
Qed.

Lemma main_step_threads p c c' :
  main_step p c = Some c' → ∃ new, allthreads c' = allthreads c ++ new.
Proof.
  unfold main_step. destruct (mpc c) as [i|i].
  - destruct (devices c !! i); intros; simplify_eq; exists []; by rewrite app_nil_r.
  - destruct (devices c !! i) as [d|]; simpl; [|done].
    destruct (done d); intros; simplify_eq; simpl; [by eexists|].
    exists []. by rewrite app_nil_r.
Qed.

Lemma busy_has_worker p argv0 args c i :
  reachable p argv0 args c → flag c i = Some false →
  ∃ tid t, allthreads c !! tid = Some t ∧ dev t = i ∧ in_flight t.
Proof.
  intros Hc. revert i. revert c Hc. apply (reachable_induction p argv0 args
    (λ c, ∀ i, flag c i = Some false →
       ∃ tid t, allthreads c !! tid = Some t ∧ dev t = i ∧ in_flight t)).
  - intros c (adb & ms & devs & rest & -> & ->)%boot_Some i. unfold flag. simpl.
    destruct (get_devices devs !! i) as [d|] eqn:Ed; [|done].
    pose proof (get_devices_idle devs) as Hidle. rewrite Forall_forall in Hidle.
    simpl. intros [= Hd]. rewrite (Hidle d) in Hd by by eapply list_elem_of_lookup_2.
    done.
  - intros ch c c' Hc IH Hstep i Hflag.
    pose proof (reachable_invariant _ _ _ _ Hc) as Hinv.
    destruct ch as [|tid st]; simpl in Hstep.
    + unfold flag in Hflag. rewrite (main_step_devices _ _ _ Hstep) in Hflag.
      destruct (IH i Hflag) as (tid & t & Ht & Hdev & Hfl).
      destruct (main_step_threads _ _ _ Hstep) as (new & ->).
      exists tid, t. split; [|done]. by apply lookup_app_l_Some.
    + unfold worker_step in Hstep.
      destruct (allthreads c !! tid) as [t0|] eqn:Et0; simpl in Hstep; [|done].
      destruct (todo_shape c tid t0 Hinv Et0) as (d0 & Hd0 & Hshape).
      assert (tid < length (allthreads c))%nat as Htid by by eapply lookup_lt_Some.
      destruct (todo t0) as [|a rest] eqn:Etodo; [done|].
      destruct a as [b|cmd]; simplify_eq; unfold flag in Hflag; simpl in *.
      * destruct (decide (i = dev t0)) as [->|Hne].
        -- rewrite list_lookup_alter_eq, Hd0 in Hflag. simpl in Hflag.
           injection Hflag as ->.
           exists tid, {| dev := dev t0; todo := rest |}.
           split; [by apply list_lookup_insert_eq|]. split; [done|].
           unfold systemthread in Hshape.
           destruct Hshape as [?|[?|[?|[?|?]]]]; simplify_eq.
           by eexists _, _.
        -- rewrite list_lookup_alter_ne in Hflag by done.
           destruct (IH i Hflag) as (tid' & t' & Ht' & Hdev & Hfl).
           exists tid', t'. split; [|done].
           rewrite list_lookup_insert_ne; [done|]. intros ->. simplify_eq.
      * destruct (IH i Hflag) as (tid' & t' & Ht' & Hdev & Hfl).
        destruct (decide (tid' = tid)) as [->|Hne].
        -- simplify_eq. exists tid, {| dev := dev t0; todo := rest |}.
           split; [by apply list_lookup_insert_eq|]. split; [done|].
           unfold systemthread in Hshape.
           destruct Hshape as [?|[?|[?|[?|?]]]]; simplify_eq; by eexists _, _.
        -- exists tid', t'. split; [|done]. by rewrite list_lookup_insert_ne.
Qed.

(** X14. A flag never reads busy without a worker behind it: in every
    configuration the program can reach, a record whose flag is busy has a
    worker bound to it that has stored busy and has not yet stored idle. *)
Theorem X14_busy_flag_has_worker (p : platform) (argv0 : cstring) (args : list cstring)
    (c : config) (i : nat) :
  reachable p argv0 args c →
  flag c i = Some false →
  ∃ tid t, allthreads c !! tid = Some t ∧ dev t = i ∧ in_flight t.
Proof. apply busy_has_worker. Qed.

(** X15. A worker is never blocked by the program: from every
    configuration the program can reach, any worker can take all the steps
    it has left, whatever statuses the commands return; it has then ended,
    no other thread and no other record's flag has changed, and if it had
    anything left to do its record's flag reads idle. *)
Theorem X15_worker_runs_to_end (p : platform) (argv0 : cstring) (args : list cstring)
    (c : config) (tid : nat) (t : thread) (sts : list Z) :
  reachable p argv0 args c →
  allthreads c !! tid = Some t →
  length sts = length (todo t) →
  ∃ c', run p (RunWorker tid <$> sts) c = Some c' ∧
        allthreads c' !! tid = Some {| dev := dev t; todo := [] |} ∧
        (∀ tid', tid' ≠ tid → allthreads c' !! tid' = allthreads c !! tid') ∧
        (∀ j, j ≠ dev t → flag c' j = flag c j) ∧
        mpc c' = mpc c ∧
        (todo t ≠ [] → flag c' (dev t) = Some true).
Proof.
  intros Hc Ht Hlen.
  destruct (todo_shape c tid t (reachable_invariant _ _ _ _ Hc) Ht) as (d & Hd & Hshape).
  destruct (run_worker_todo p tid (todo t) sts c t Ht eq_refl Hlen)
    as (c' & S' & T' & P' & L' & D' & F').
  exists c'. split_and!; [done| | | |done|].
  - rewrite T'. apply list_lookup_insert_eq. by eapply lookup_lt_Some.
  - intros tid' Hne. by rewrite T', list_lookup_insert_ne.
  - intros j Hj. unfold flag. by rewrite D'.
  - intros Hne. apply F'; [|by eapply lookup_lt_Some].
    unfold systemthread in Hshape. by destruct Hshape as [->|[->|[->|[->|?]]]].
Qed.

Lemma finish_threads p : ∀ k c,
  (k ≤ length (allthreads c))%nat →
  ∃ sched c',
    Forall (λ ch, ch ≠ RunMain) sched ∧
    run p sched c = Some c' ∧
    length (allthreads c') = length (allthreads c) ∧
    mpc c' = mpc c ∧
    (∀ tid t, (tid < k)%nat → allthreads c' !! tid = Some t → todo t = []).
Proof.
  induction k as [|k IH]; intros c Hk.
  - exists [], c. split_and!; try done. intros; lia.
  - destruct (IH c) as (sched1 & c1 & Hsched1 & S1 & L1 & P1 & F1); [lia|].
    destruct (lookup_lt_is_Some_2 (allthreads c1) k) as [t Ht]; [lia|].
    destruct (run_worker_todo p k (todo t) (replicate (length (todo t)) 0) c1 t Ht eq_refl)
      as (c2 & S2 & T2 & P2 & _); [by rewrite length_replicate|].
    exists (sched1 ++ (RunWorker k <$> replicate (length (todo t)) 0)), c2.
    split_and!.
    + apply Forall_app. split; [done|]. apply Forall_fmap, Forall_forall. done.
    + by rewrite run_app, S1.
    + by rewrite T2, length_insert.
    + congruence.
    + intros tid t' Htid Ht'. rewrite T2 in Ht'.
      destruct (decide (tid = k)) as [->|Hne].
      * rewrite list_lookup_insert_eq in Ht' by by eapply lookup_lt_Some.
        by simplify_eq.
      * rewrite list_lookup_insert_ne in Ht' by done. eapply F1; [|done]. lia.
Qed.

(** X16. The table can always come to rest: from every configuration the
    program can reach there is a schedule of worker steps alone, [main]
    staying where it is, after which every worker has ended and every flag
    reads idle. *)
Theorem X16_workers_drain_to_idle (p : platform) (argv0 : cstring) (args : list cstring)
    (c : config) :
  reachable p argv0 args c →
  ∃ sched c',
    Forall (λ ch, ch ≠ RunMain) sched ∧
    run p sched c = Some c' ∧
    mpc c' = mpc c ∧
    length (allthreads c') = length (allthreads c) ∧
    Forall (λ t, todo t = []) (allthreads c') ∧
    Forall (λ d, done d = true) (devices c').
Proof.
  intros Hc.
  destruct (finish_threads p (length (allthreads c)) c) as (sched & c' & Hs & S' & L' & P' & F');
    [done|].
  exists sched, c'. split_and!; [done..| |].
  - apply Forall_lookup. intros tid t Ht. eapply F'; [|done].
    rewrite <-L'. by eapply lookup_lt_Some.
  - apply Forall_lookup. intros i d Hd. destruct (done d) eqn:Edone; [done|].
    destruct (busy_has_worker p argv0 args c' i) as (tid & t & Ht & _ & a & rest & Htodo & _).
    { by eapply reachable_run. }
    { unfold flag. by rewrite Hd; simpl; rewrite Edone. }
    rewrite (F' tid t) in Htodo; [done| |done].
    rewrite <-L'. by eapply lookup_lt_Some.
Qed.

(** ** Threads are only ever added *)

Lemma spawns_snoc tr e :
  spawns (tr ++ [e]) =
  spawns tr ++ match e with ESpawn tid i => [(tid, i)] | _ => [] end.
Proof. unfold spawns. rewrite omap_app. simpl. by destruct e. Qed.

Lemma devs_insert_todo (threads : list thread) tid t rest :
  threads !! tid = Some t →
  dev <$> <[tid := {| dev := dev t; todo := rest |}]> threads = dev <$> threads.
Proof.
  intros Ht. rewrite list_fmap_insert. simpl. apply list_insert_id.
  by rewrite list_lookup_fmap, Ht.
Qed.

Lemma step_devs_prefix p ch c c' :
  step p ch c = Some c' →
  ∃ new, dev <$> allthreads c' = (dev <$> allthreads c) ++ new.
Proof.
  destruct ch as [|tid st]; simpl.
  - intros (new & ->)%main_step_threads. exists (dev <$> new). by rewrite fmap_app.
  - unfold worker_step. destruct (allthreads c !! tid) as [t|] eqn:Et; simpl; [|done].
    destruct (todo t) as [|[b|cmd] rest]; intros; simplify_eq; simpl;
      exists []; by rewrite app_nil_r, (devs_insert_todo _ _ _ _ Et).
Qed.

Lemma run_devs_prefix p sched : ∀ c c',
  run p sched c = Some c' →
  ∃ new, dev <$> allthreads c' = (dev <$> allthreads c) ++ new.
Proof.
  induction sched as [|ch sched IH]; intros c c' H; simpl in H.
  - simplify_eq. exists []. by rewrite app_nil_r.
  - destruct (step p ch c) as [c1|] eqn:E; simpl in H; [|done].
    destruct (step_devs_prefix _ _ _ _ E) as (new1 & E1).
    destruct (IH _ _ H) as (new2 & E2).
    exists (new1 ++ new2). by rewrite E2, E1, app_assoc.
Qed.

(** X17. No thread is ever joined, erased or rebound: in every
    configuration the program can reach, [allthreads] holds exactly the
    threads the trace started, numbered 0, 1, 2, ... in the order they were
    started and bound to the record they were started for; and whatever
    runs next only appends to that list. *)
Theorem X17_threads_only_grow (p : platform) (argv0 : cstring) (args : list cstring)
    (c : config) :
  reachable p argv0 args c →
  fst <$> spawns (trace c) = seq 0 (length (allthreads c)) ∧
  snd <$> spawns (trace c) = dev <$> allthreads c ∧
  (∀ sched c', run p sched c = Some c' →
     ∃ new, dev <$> allthreads c' = (dev <$> allthreads c) ++ new).
Proof.
  intros Hc. split_and!; [..|intros sched c'; apply run_devs_prefix].
  - revert c Hc. apply reachable_induction.
    + by intros c (adb & ms & devs & rest & -> & ->)%boot_Some.
    + intros ch c c' _ IH Hstep. destruct ch as [|tid st]; simpl in Hstep.
      * unfold main_step in Hstep. destruct (mpc c) as [i|i].
        -- destruct (devices c !! i); simplify_eq; simpl; rewrite spawns_snoc;
             [by rewrite app_nil_r|].
           unfold sleepcp. destruct (win32 p); by rewrite app_nil_r.
        -- destruct (devices c !! i) as [d|]; simpl in Hstep; [|done].
           destruct (done d); simplify_eq; simpl; [|done].
           rewrite spawns_snoc, fmap_app, IH, length_app. simpl.
           by rewrite Nat.add_1_r, seq_S.
      * unfold worker_step in Hstep.
        destruct (allthreads c !! tid) as [t|]; simpl in Hstep; [|done].
        destruct (todo t) as [|[b|cmd] rest]; simplify_eq; simpl;
          by rewrite spawns_snoc, app_nil_r, length_insert.
  - revert c Hc. apply reachable_induction.
    + by intros c (adb & ms & devs & rest & -> & ->)%boot_Some.
    + intros ch c c' _ IH Hstep. destruct ch as [|tid st]; simpl in Hstep.
      * unfold main_step in Hstep. destruct (mpc c) as [i|i].
        -- destruct (devices c !! i); simplify_eq; simpl; rewrite spawns_snoc;
             [by rewrite app_nil_r|].
           unfold sleepcp. destruct (win32 p); by rewrite app_nil_r.
        -- destruct (devices c !! i) as [d|]; simpl in Hstep; [|done].
           destruct (done d); simplify_eq; simpl; [|done].
           by rewrite spawns_snoc, !fmap_app, IH.
      * unfold worker_step in Hstep.
        destruct (allthreads c !! tid) as [t|] eqn:Et; simpl in Hstep; [|done].
        destruct (todo t) as [|[b|cmd] rest]; simplify_eq; simpl;
          by rewrite spawns_snoc, app_nil_r, (devs_insert_todo _ _ _ _ Et).
Qed.

(** ** Unbounded growth *)

Lemma scan_threads_devs adb ds : ∀ i,
  Forall (λ d, done d = true) ds → dev <$> scan_threads adb i ds = seq i (length ds).
Proof.
  induction ds as [|d ds IH]; intros i Hall; [done|].
  inversion_clear Hall as [|? ? Hd Hds]. cbn [scan_threads]. rewrite Hd.
  simpl. by rewrite IH.
Qed.

Lemma main_iterations p k : ∀ c,
  mpc c = ForPrint 0 → Forall (λ d, done d = true) (devices c) →
  ∃ c', run p (replicate (k * (2 * length (devices c) + 1)) RunMain) c = Some c' ∧
        mpc c' = ForPrint 0 ∧
        devices c' = devices c ∧
        dev <$> allthreads c' =
          (dev <$> allthreads c) ++ concat (replicate k (seq 0 (length (devices c)))).
Proof.
  induction k as [|k IH]; intros c Hpc Hidle.
  - exists c. simpl. by rewrite app_nil_r.
  - destruct (main_iteration p c Hpc) as (c1 & S1 & _ & _ & D1 & T1 & P1 & _).
    destruct (IH c1 P1) as (c' & S' & P' & D' & T'); [by rewrite D1|].
    exists c'. split_and!; [|done|congruence|].
    + replace (S k * (2 * length (devices c) + 1))%nat
        with ((2 * length (devices c) + 1) + k * (2 * length (devices c) + 1))%nat by lia.
      rewrite replicate_add, run_app, S1. simpl. by rewrite <-D1.
    + rewrite T', T1, D1, fmap_app, scan_threads_devs by done.
      simpl. by rewrite <-app_assoc.
Qed.

(** X18. The number of threads has no bound: when no worker gets to take a
    step, [k] iterations of the loop start [k] workers for every record, in
    table order each time, and leave every flag idle. *)
Theorem X18_thread_growth (p : platform) (argv0 adb ms devs : cstring)
    (rest : list cstring) (k : nat) :
  ∃ c,
    boot p argv0 (adb :: ms :: devs :: rest)
      ≫= run p (replicate (k * (2 * length (get_devices devs) + 1)) RunMain) = Some c ∧
    dev <$> allthreads c = concat (replicate k (seq 0 (length (get_devices devs)))) ∧
    length (allthreads c) = (k * length (get_devices devs))%nat ∧
    devices c = get_devices devs.
Proof.
  set (c0 := {| adb_exe := adb; sleep_time := atoi p ms; devices := get_devices devs;
                allthreads := []; mpc := ForPrint 0;
                trace := [EStdout (lit "Devices:" ++ [NL])] |}).
  assert (boot p argv0 (adb :: ms :: devs :: rest) = Some c0) as Hboot.
  { apply boot_Some. by eexists _, _, _, _. }
  destruct (main_iterations p k c0 eq_refl (get_devices_idle devs)) as (c & S' & _ & D' & T').
  simpl in *. exists c. rewrite Hboot. split_and!; [done..| |done].
  rewrite <-(length_fmap dev), T'.
  clear. induction k as [|k IH]; simpl; [done|].
  by rewrite length_app, length_seq, IH.
Qed.

(** ** Prompt workers exclude each other *)

Lemma prompt_step_cases p ch c c' :
  invariant c → entered c → prompt_step p ch c = Some c' →
  (allthreads c' = allthreads c ∧ devices c' = devices c) ∨
  (∃ i d cmd1 cmd2,
     devices c !! i = Some d ∧ done d = true ∧
     allthreads c' =
       allthreads c ++ [{| dev := i; todo := [ASystem cmd1; ASystem cmd2; AStore true] |}] ∧
     devices c' = alter (set_done false) i (devices c)) ∨
  (∃ tid t cmd a rest,
     allthreads c !! tid = Some t ∧ todo t = ASystem cmd :: a :: rest ∧ a ≠ AStore false ∧
     allthreads c' = <[tid := {| dev := dev t; todo := a :: rest |}]> (allthreads c) ∧
     devices c' = devices c) ∨
  (∃ tid t,
     allthreads c !! tid = Some t ∧ todo t = [AStore true] ∧
     allthreads c' = <[tid := {| dev := dev t; todo := [] |}]> (allthreads c) ∧
     devices c' = alter (set_done true) (dev t) (devices c)).
Proof.
  intros Hinv Hent Hstep. unfold prompt_step in Hstep.
  destruct (step p ch c) as [c1|] eqn:E1; simpl in Hstep; [|done].
  destruct ch as [|tid st]; simpl in E1.
  - unfold main_step in E1. destruct (mpc c) as [i|i].
    + left. destruct (devices c !! i); simplify_eq; simpl in *;
        rewrite decide_False in Hstep by lia; by simplify_eq.
    + destruct (devices c !! i) as [d|] eqn:Ed; simpl in E1; [|done].
      destruct (done d) eqn:Edone; simplify_eq; simpl in *.
      * right. left. rewrite decide_True in Hstep by (rewrite length_app; simpl; lia).
        unfold worker_step in Hstep. simpl in Hstep.
        rewrite list_lookup_middle in Hstep by done. simpl in Hstep. simplify_eq. simpl.
        exists i, d, (connect_cmd (adb_exe c) d), (run_server (adb_exe c) d).
        split_and!; [done..| |done].
        rewrite <-(Nat.add_0_r (length (allthreads c))). by rewrite insert_app_r.
      * left. rewrite decide_False in Hstep by lia. by simplify_eq.
  - assert (length (allthreads c1) = length (allthreads c)) as Hlen.
    { unfold worker_step in E1. destruct (allthreads c !! tid) as [t|]; simpl in E1; [|done].
      destruct (todo t) as [|[b|cmd] rest]; simplify_eq; simpl; by rewrite length_insert. }
    rewrite decide_False in Hstep by lia. simplify_eq.
    unfold worker_step in E1.
    destruct (allthreads c !! tid) as [t|] eqn:Et; simpl in E1; [|done].
    destruct (todo_shape c tid t Hinv Et) as (d & Hd & Hshape).
    pose proof (Hent tid t Et) as Hhead. unfold systemthread in Hshape.
    destruct Hshape as [E|[E|[E|[E|E]]]]; rewrite E in E1, Hhead; simplify_eq; simpl in *.
    + right. right. left. eexists tid, t, _, _, _. by split_and!.
    + right. right. left. eexists tid, t, _, _, _. by split_and!.
    + right. right. right. exists tid, t. by split_and!.
Qed.

Lemma prompt_step_run p ch c c' :
  prompt_step p ch c = Some c' → ∃ sched, run p sched c = Some c'.
Proof.
  unfold prompt_step. destruct (step p ch c) as [c1|] eqn:E1; simpl; [|done].
  case_decide as Hgrew.
  - intros H. exists [ch; RunWorker (length (allthreads c)) 0]. simpl. rewrite E1. simpl.
    by rewrite H.
  - intros [= <-]. exists [ch]. simpl. by rewrite E1.
Qed.

Lemma prompt_step_exclusive p argv0 args ch c c' :
  reachable p argv0 args c → entered c → exclusive c →
  prompt_step p ch c = Some c' →
  reachable p argv0 args c' ∧ entered c' ∧ exclusive c'.
Proof.
  intros Hc Hent Hexc Hstep. split.
  { destruct (prompt_step_run _ _ _ _ Hstep) as (sched & Hrun). by eapply reachable_run. }
  pose proof (reachable_invariant _ _ _ _ Hc) as Hinv.
  destruct (prompt_step_cases _ _ _ _ Hinv Hent Hstep)
    as [(T & D)|[(i & d & cmd1 & cmd2 & Hd & Hidle & T & D)
       |[(tid & t & cmd & a & rest & Ht & Htodo & Ha & T & D)|(tid & t & Ht & Htodo & T & D)]]];
    unfold entered, exclusive, flag in *; rewrite T, D.
  - done.
  - assert (∀ tid t, allthreads c !! tid = Some t → todo t ≠ [] → dev t ≠ i) as Hfree.
    { intros tid t Ht Hne E. destruct (Hexc tid t Ht Hne) as [Hf _].
      rewrite E, Hd in Hf. simpl in Hf. congruence. }
    split.
    + intros tid t [Ht|[_ Ht]]%lookup_app_Some; [eauto|].
      apply list_lookup_singleton_Some in Ht as [_ <-]. done.
    + intros tid t [Ht|[Hlen Ht]]%lookup_app_Some Hne.
      * destruct (Hexc tid t Ht Hne) as [Hf Huniq]. split.
        -- rewrite list_lookup_alter_ne; [done|]. intros E. by eapply Hfree.
        -- intros tid' t' [Ht'|[_ Ht']]%lookup_app_Some Hdev Hne'; [eauto|].
           apply list_lookup_singleton_Some in Ht' as [_ <-]. simpl in Hdev.
           destruct (Hfree tid t Ht Hne). done.
      * apply list_lookup_singleton_Some in Ht as [Htid <-]. simpl. split.
        -- by rewrite list_lookup_alter_eq, Hd.
        -- intros tid' t' [Ht'|[Hlen' Ht']]%lookup_app_Some Hdev Hne'.
           ++ destruct (Hfree tid' t' Ht' Hne'). done.
           ++ apply list_lookup_singleton_Some in Ht' as [Htid' _]. lia.
  - assert (tid < length (allthreads c))%nat as Hlt by by eapply lookup_lt_Some.
    assert (todo t ≠ []) as Hne0 by by rewrite Htodo.
    destruct (Hexc tid t Ht Hne0) as [Hf0 Huniq0].
    split.
    + intros tid' t' Ht'. destruct (decide (tid' = tid)) as [->|Hne].
      * rewrite list_lookup_insert_eq in Ht' by done. simplify_eq. simpl. congruence.
      * rewrite list_lookup_insert_ne in Ht' by done. eauto.
    + intros tid1 t1 Ht1 Hne1.
      assert (∃ t1', allthreads c !! tid1 = Some t1' ∧ dev t1' = dev t1 ∧ todo t1' ≠ [])
        as (t1' & Ht1' & Hdev1 & Hne1').
      { destruct (decide (tid1 = tid)) as [->|Hne].
        - rewrite list_lookup_insert_eq in Ht1 by done. simplify_eq. eauto.
        - rewrite list_lookup_insert_ne in Ht1 by done. eauto. }
      destruct (Hexc tid1 t1' Ht1' Hne1') as [Hf Huniq]. rewrite <-Hdev1. split; [done|].
      intros tid2 t2 Ht2 Hdev2 Hne2. destruct (decide (tid2 = tid)) as [->|Hne].
      * rewrite list_lookup_insert_eq in Ht2 by done. simplify_eq. simpl in Hdev2. eauto.
      * rewrite list_lookup_insert_ne in Ht2 by done. eauto.
  - assert (tid < length (allthreads c))%nat as Hlt by by eapply lookup_lt_Some.
    assert (todo t ≠ []) as Hne0 by by rewrite Htodo.
    destruct (Hexc tid t Ht Hne0) as [Hf0 Huniq0].
    split.
    + intros tid' t' Ht'. destruct (decide (tid' = tid)) as [->|Hne].
      * rewrite list_lookup_insert_eq in Ht' by done. by simplify_eq.
      * rewrite list_lookup_insert_ne in Ht' by done. eauto.
    + intros tid1 t1 Ht1 Hne1. destruct (decide (tid1 = tid)) as [->|Hne].
      { rewrite list_lookup_insert_eq in Ht1 by done. by simplify_eq. }
      rewrite list_lookup_insert_ne in Ht1 by done.
      destruct (Hexc tid1 t1 Ht1 Hne1) as [Hf Huniq].
      assert (dev t1 ≠ dev t) as Hdev.
      { intros E. apply Hne. by eapply Huniq0. }
      split; [by rewrite list_lookup_alter_ne|].
      intros tid2 t2 Ht2 Hdev2 Hne2. destruct (decide (tid2 = tid)) as [->|Hne'].
      * rewrite list_lookup_insert_eq in Ht2 by done. by simplify_eq.
      * rewrite list_lookup_insert_ne in Ht2 by done. eauto.
Qed.

Lemma run_prompt_exclusive p argv0 args sched : ∀ c c',
  reachable p argv0 args c → entered c → exclusive c →
  run_prompt p sched c = Some c' →
  reachable p argv0 args c' ∧ entered c' ∧ exclusive c'.
Proof.
  induction sched as [|ch sched IH]; intros c c' Hc Hent Hexc H; simpl in H.
  - by simplify_eq.
  - destruct (prompt_step p ch c) as [c1|] eqn:E; simpl in H; [|done].
    destruct (prompt_step_exclusive _ _ _ _ _ _ Hc Hent Hexc E) as (? & ? & ?).
    by eapply IH.
Qed.

(** X19. The flag protocol does exclude a second worker when workers enter
    promptly: along every schedule in which a newly started worker takes its
    entry step before any other thread moves, each record has at most one
    worker that has not ended, and while it has one its flag reads busy. The
    configurations of such schedules are configurations of the program. *)
Theorem X19_prompt_workers_exclusive (p : platform) (argv0 : cstring)
    (args : list cstring) (sched : list choice) (c0 c : config) :
  boot p argv0 args = Some c0 →
  run_prompt p sched c0 = Some c →
  reachable p argv0 args c ∧
  ∀ tid1 tid2 t1 t2,
    allthreads c !! tid1 = Some t1 → allthreads c !! tid2 = Some t2 →
    dev t1 = dev t2 → todo t1 ≠ [] → todo t2 ≠ [] →
    tid1 = tid2 ∧ flag c (dev t1) = Some false.
Proof.
  intros Hboot Hrun.
  destruct (run_prompt_exclusive p argv0 args sched c0 c) as (Hc & _ & Hexc); try done.
  - by apply reachable_boot.
  - apply boot_Some in Hboot as (? & ? & ? & ? & -> & ->). by intros tid t Ht.
  - apply boot_Some in Hboot as (? & ? & ? & ? & -> & ->). by intros tid t Ht.
  - split; [done|]. intros tid1 tid2 t1 t2 Ht1 Ht2 Hdev Hne1 Hne2.
    destruct (Hexc tid2 t2 Ht2 Hne2) as [Hf Huniq]. split; [by eapply Huniq|].
    by rewrite Hdev.
Qed.

(** ** The order of the output *)

Lemma stdout_texts_snoc tr e :
  stdout_texts (tr ++ [e]) =
  stdout_texts tr ++ match e with EStdout text => [text] | _ => [] end.
Proof. unfold stdout_texts. rewrite omap_app. simpl. by destruct e. Qed.

Lemma cyclic_index r n i : (i < n)%nat → ((r * n + i) mod n = i)%nat.
Proof.
  intros Hi. rewrite Nat.add_comm, Nat.Div0.mod_add. by apply Nat.mod_small.
Qed.

Lemma stdout_order p argv0 args c :
  reachable p argv0 args c →
  ∃ r lines,
    stdout_texts (trace c) = (lit "Devices:" ++ [NL]) :: lines ∧
    length lines = (r * length (devices c) + printed (mpc c))%nat ∧
    (printed (mpc c) ≤ length (devices c))%nat ∧
    ∀ k text, lines !! k = Some text →
      ∃ nm b, (name <$> devices c) !! (k mod length (devices c))%nat = Some nm ∧
              text = nm ++ [TAB] ++ print_bool b ++ [NL].
Proof.
  revert c. apply reachable_induction.
  - intros c (adb & ms & devs & rest & -> & ->)%boot_Some.
    exists 0%nat, []. simpl. split_and!; [done|done|lia|done].
  - intros ch c c' Hc (r & lines & Hout & Hlen & Hpos & Hlines) Hstep.
    pose proof (reachable_invariant _ _ _ _ Hc) as Hinv.
    destruct (step_static _ _ _ _ Hstep) as (_ & _ & Hnames).
    assert (length (devices c') = length (devices c)) as Hn.
    { by rewrite <-(length_fmap name), Hnames, length_fmap. }
    rewrite Hnames, Hn.
    destruct ch as [|tid st]; simpl in Hstep.
    + unfold main_step in Hstep. destruct (mpc c) as [i|i] eqn:Epc; simpl in *.
      * destruct (devices c !! i) as [d|] eqn:Ed; simplify_eq; simpl.
        -- assert (i < length (devices c))%nat as Hi by by eapply lookup_lt_Some.
           exists r, (lines ++ [device_line d]).
           rewrite stdout_texts_snoc, Hout. split_and!; [done| |lia|].
           { rewrite length_app. simpl. lia. }
           intros k text [Hk|[Hk Hlast]]%lookup_app_Some; [eauto|].
           apply list_lookup_singleton_Some in Hlast as [Hz <-].
           assert (k = r * length (devices c) + i)%nat as -> by lia.
           rewrite cyclic_index by done.
           exists (name d), (done d). split; [|done].
           by rewrite list_lookup_fmap, Ed.
        -- apply lookup_ge_None_1 in Ed.
           exists (S r), lines. rewrite stdout_texts_snoc, Hout.
           split_and!; [|simpl; lia|lia|done].
           unfold sleepcp. destruct (win32 p); by rewrite app_nil_r.
      * destruct (devices c !! i) as [d|] eqn:Ed; simpl in Hstep; [|done].
        exists r, lines.
        destruct (done d); simplify_eq; simpl; rewrite ?stdout_texts_snoc, ?app_nil_r;
          by split_and!.
    + unfold worker_step in Hstep.
      destruct (allthreads c !! tid) as [t|]; simpl in Hstep; [|done].
      exists r, lines.
      destruct (todo t) as [|[b|cmd] rest]; simplify_eq; simpl;
        rewrite stdout_texts_snoc, app_nil_r; by split_and!.
Qed.

(** X20. Whatever the workers do in between, standard output lists the
    records in table order, pass after pass: after the heading, the line
    number [k] (counted from 0) is the line of record [k] modulo the number
    of records, and when [main] stands at the start of a pass the number of
    lines is a multiple of the number of records. *)
Theorem X20_stdout_cyclic_order (p : platform) (argv0 : cstring) (args : list cstring)
    (c : config) :
  reachable p argv0 args c →
  ∃ lines,
    stdout_texts (trace c) = (lit "Devices:" ++ [NL]) :: lines ∧
    (∀ k text, lines !! k = Some text →
       ∃ nm b, (name <$> devices c) !! (k mod length (devices c))%nat = Some nm ∧
               text = nm ++ [TAB] ++ print_bool b ++ [NL]) ∧
    (mpc c = ForPrint 0 → ∃ r, length lines = (r * length (devices c))%nat).
Proof.
  intros Hc. destruct (stdout_order _ _ _ _ Hc) as (r & lines & Hout & Hlen & _ & Hlines).
  exists lines. split_and!; [done..|].
  intros Hpc. exists r. rewrite Hlen, Hpc. simpl. lia.
Qed.

(** ** The sample run, continued *)

Lemma sample_busy_reachable : reachable linux_glibc (lit "./main") sample_args sample_busy.
Proof. exists [RunMain; RunMain; RunWorker 0 0]. vm_compute. reflexivity. Defined.

Lemma X8_get_devices_names_wellformed_sample :
  new_device (lit "127.0.0.1:5570") ∈ get_devices (lit "127.0.0.1:5555/ 127.0.0.1:5570 ") ∧
  ∃ l1 l2, lit "127.0.0.1:5555/ 127.0.0.1:5570 " = l1 ++ lit "127.0.0.1:5570" ++ l2.
Proof.
  assert (new_device (lit "127.0.0.1:5570")
            ∈ get_devices (lit "127.0.0.1:5555/ 127.0.0.1:5570 ")) as H.
  { change (get_devices (lit "127.0.0.1:5555/ 127.0.0.1:5570 "))
      with [new_device (lit "127.0.0.1:5555"); new_device (lit "127.0.0.1:5570")].
    apply elem_of_cons. right. apply elem_of_cons. by left. }
  split; [exact H|].
  exact (proj2 (proj2 (proj2 (proj2 (proj2
           (X8_get_devices_names_wellformed _ _ H)))))).
Defined.

Lemma X12_sleepcp_windows_sample :
  win32 windows_msvc = true ∧
  INT_MIN ≤ 5000 ≤ INT_MAX ∧
  sleepcp windows_msvc 5000 = ESleep 5000.
Proof.
  assert (INT_MIN ≤ 5000 ≤ INT_MAX) as H by (unfold INT_MIN, INT_MAX; lia).
  split; [reflexivity|]. split; [exact H|].
  apply (proj1 (X12_sleepcp_windows windows_msvc 5000 eq_refl H)). lia.
Defined.

Lemma X13_sleepcp_posix_unsigned_sample :
  win32 linux_glibc = false ∧
  INT_MIN ≤ 3000000 ≤ INT_MAX ∧
  sleepcp linux_glibc 3000000 = EUsleep ((3000000 * 1000) mod 2 ^ 32) ∧
  (3000000 * 1000) mod 2 ^ 32 = 3000000 * 1000.
Proof.
  assert (INT_MIN ≤ 3000000 ≤ INT_MAX) as H by (unfold INT_MIN, INT_MAX; lia).
  split; [reflexivity|]. split; [exact H|].
  destruct (X13_sleepcp_posix_unsigned linux_glibc 3000000 eq_refl H) as [Hs Hiff].
  split; [exact Hs|]. apply Hiff. lia.
Defined.

Lemma X14_busy_flag_has_worker_sample :
  reachable linux_glibc (lit "./main") sample_args sample_busy ∧
  flag sample_busy 0 = Some false ∧
  ∃ tid t, allthreads sample_busy !! tid = Some t ∧ dev t = 0%nat ∧ in_flight t.
Proof.
  split; [exact sample_busy_reachable|]. split; [reflexivity|].
  exact (X14_busy_flag_has_worker _ _ _ _ 0 sample_busy_reachable eq_refl).
Defined.

Lemma X15_worker_runs_to_end_sample :
  reachable linux_glibc (lit "./main") sample_args sample_busy ∧
  allthreads sample_busy !! 0%nat =
    Some {| dev := 0;
            todo := [ASystem (lit "adb.exe connect 127.0.0.1:5555");
                     ASystem (run_server (lit "adb.exe") (new_device (lit "127.0.0.1:5555")));
                     AStore true] |} ∧
  length [1; 256; 0] = 3%nat ∧
  ∃ c', run linux_glibc (RunWorker 0 <$> [1; 256; 0]) sample_busy = Some c' ∧
        flag c' 0 = Some true.
Proof.
  split; [exact sample_busy_reachable|]. split; [reflexivity|]. split; [reflexivity|].
  destruct (X15_worker_runs_to_end linux_glibc (lit "./main") sample_args sample_busy 0 _
              [1; 256; 0] sample_busy_reachable eq_refl eq_refl)
    as (c' & Hrun & _ & _ & _ & _ & Hflag).
  exists c'. split; [exact Hrun|]. apply Hflag. discriminate.
Defined.

Lemma X16_workers_drain_to_idle_sample :
  reachable linux_glibc (lit "./main") sample_args sample_busy ∧
  ∃ sched c',
    Forall (λ ch, ch ≠ RunMain) sched ∧
    run linux_glibc sched sample_busy = Some c' ∧
    Forall (λ d, done d = true) (devices c').
Proof.
  split; [exact sample_busy_reachable|].
  destruct (X16_workers_drain_to_idle _ _ _ _ sample_busy_reachable)
    as (sched & c' & Hs & Hrun & _ & _ & _ & Hidle).
  exists sched, c'. split; [exact Hs|]. split; [exact Hrun|exact Hidle].
Defined.

Lemma X17_threads_only_grow_sample :
  reachable linux_glibc (lit "./main") sample_args sample_busy ∧
  fst <$> spawns (trace sample_busy) = seq 0 (length (allthreads sample_busy)) ∧
  snd <$> spawns (trace sample_busy) = dev <$> allthreads sample_busy.
Proof.
  split; [exact sample_busy_reachable|].
  destruct (X17_threads_only_grow _ _ _ _ sample_busy_reachable) as (H1 & H2 & _).
  split; [exact H1|exact H2].
Defined.

Lemma X19_prompt_workers_exclusive_sample :
  boot linux_glibc (lit "./main") sample_args = Some sample_boot ∧
  run_prompt linux_glibc [RunMain; RunMain] sample_boot = Some sample_busy ∧
  reachable linux_glibc (lit "./main") sample_args sample_busy.
Proof.
  assert (run_prompt linux_glibc [RunMain; RunMain] sample_boot = Some sample_busy) as H.
  { vm_compute. reflexivity. }
  split; [reflexivity|]. split; [exact H|].
  exact (proj1 (X19_prompt_workers_exclusive linux_glibc (lit "./main") sample_args
                  [RunMain; RunMain] sample_boot sample_busy eq_refl H)).
Defined.

Lemma X20_stdout_cyclic_order_sample :
  reachable linux_glibc (lit "./main") sample_args sample_busy ∧
  ∃ lines, stdout_texts (trace sample_busy) = (lit "Devices:" ++ [NL]) :: lines ∧
    ∀ k text, lines !! k = Some text →
      ∃ nm b, (name <$> devices sample_busy) !! (k mod length (devices sample_busy))%nat
                = Some nm ∧
              text = nm ++ [TAB] ++ print_bool b ++ [NL].
Proof.
  split; [exact sample_busy_reachable|].
  destruct (X20_stdout_cyclic_order _ _ _ _ sample_busy_reachable) as (lines & H1 & H2 & _).
  exists lines. split; [exact H1|exact H2].
Defined.

(** ** Who writes the flags *)

Lemma step_keeps_binding p ch c c' tid i :
  step p ch c = Some c' →
  (∃ t, allthreads c !! tid = Some t ∧ dev t = i) →
  ∃ t, allthreads c' !! tid = Some t ∧ dev t = i.
Proof.
  intros Hstep (t & Ht & Hdev).
  destruct (step_devs_prefix _ _ _ _ Hstep) as (new & Hdevs).
  assert ((dev <$> allthreads c') !! tid = Some i) as Hl.
  { rewrite Hdevs. apply lookup_app_l_Some. rewrite list_lookup_fmap, Ht. simpl. by subst. }
  rewrite list_lookup_fmap in Hl.
  destruct (allthreads c' !! tid) as [t'|]; simplify_eq/=. eauto.
Qed.

(** X21. Every store to a flag that a trace of the program holds was made
    by a thread [main] had started, and to the flag of the very record that
    thread is bound to; a step of [main] adds no store and no command to
    the trace. *)
Theorem X21_stores_by_own_worker (p : platform) (argv0 : cstring) (args : list cstring)
    (c : config) :
  reachable p argv0 args c →
  (∀ tid i b, EStore tid i b ∈ trace c → ∃ t, allthreads c !! tid = Some t ∧ dev t = i) ∧
  (∀ c' tid, main_step p c = Some c' → performed tid (trace c') = performed tid (trace c)).
Proof.
  intros Hc. split.
  - revert c Hc. apply (reachable_induction p argv0 args
      (λ c, ∀ tid i b, EStore tid i b ∈ trace c →
              ∃ t, allthreads c !! tid = Some t ∧ dev t = i)).
    + intros c (adb & ms & devs & rest & -> & ->)%boot_Some tid i b. simpl.
      intros [?|?%elem_of_nil]%elem_of_cons; done.
    + intros ch c c' _ IH Hstep tid i b Hin.
      destruct ch as [|tid0 st].
      * simpl in Hstep. eapply (step_keeps_binding p RunMain); [done|]. apply (IH tid i b).
        unfold main_step in Hstep. destruct (mpc c) as [j|j].
        -- destruct (devices c !! j); simplify_eq; simpl in Hin;
             apply elem_of_app in Hin as [?|Hin]; try done;
             apply list_elem_of_singleton in Hin; try done.
           unfold sleepcp in Hin. by destruct (win32 p).
        -- destruct (devices c !! j) as [d|]; simpl in Hstep; [|done].
           destruct (done d); simplify_eq; simpl in Hin; [|done].
           apply elem_of_app in Hin as [?|Hin]; [done|].
           by apply list_elem_of_singleton in Hin.
      * pose proof (step_keeps_binding p (RunWorker tid0 st) c c' tid i Hstep) as Hkeep.
        simpl in Hstep. unfold worker_step in Hstep.
        destruct (allthreads c !! tid0) as [t0|] eqn:Et0; simpl in Hstep; [|done].
        assert (tid0 < length (allthreads c))%nat as Hlt by by eapply lookup_lt_Some.
        destruct (todo t0) as [|[b0|cmd] rest]; simplify_eq; simpl in *;
          apply elem_of_app in Hin as [Hin|Hin%list_elem_of_singleton];
          [by apply Hkeep, (IH tid i b)| |by apply Hkeep, (IH tid i b)|done].
        simplify_eq. eexists. split; [by apply list_lookup_insert_eq|done].
  - intros c' tid Hstep. unfold main_step in Hstep. destruct (mpc c) as [j|j].
    + destruct (devices c !! j); simplify_eq; simpl; rewrite performed_snoc; simpl;
        [by rewrite app_nil_r|].
      unfold sleepcp. destruct (win32 p); simpl; by rewrite app_nil_r.
    + destruct (devices c !! j) as [d|]; simpl in Hstep; [|done].
      destruct (done d); simplify_eq; simpl; [|done].
      rewrite performed_snoc. simpl. by rewrite app_nil_r.
Qed.

Lemma X21_stores_by_own_worker_sample :
  reachable linux_glibc (lit "./main") sample_args sample_busy ∧
  EStore 0 0 false ∈ trace sample_busy ∧
  ∃ t, allthreads sample_busy !! 0%nat = Some t ∧ dev t = 0%nat.
Proof.
  split; [exact sample_busy_reachable|].
  assert (EStore 0 0 false ∈ trace sample_busy) as H.
  { simpl. do 3 (apply elem_of_cons; right). apply elem_of_cons. by left. }
  split; [exact H|].
  exact (proj1 (X21_stores_by_own_worker _ _ _ _ sample_busy_reachable) 0%nat 0%nat false H).
Defined.
